(** * A shallow embedding of the Flask user-management application (app.py)

    The application is a set of request handlers over one SQL table [users].
    Layout of this development:

    - [Py]        the Python built-ins the handlers use: [str.strip], [len],
                  truthiness of strings, [all], [int];
    - [Sql]       the table [users] as the default SQLite engine keeps it:
                  primary key, [UNIQUE] e-mail, [LIKE] patterns;
    - [App]       the handlers [add_user], [view_user], [update_user],
                  [delete_user], [search_users], [index], statement by statement;
    - [Validator] the validation contract as the specification words it: an
                  ordered list of checks, the first failing one is reported;
    - the theorems relating the handlers to the specification.

    Text is modelled by [string], whose characters are the code points
    0..255; [Py.isspace] and [Py.int] are CPython's on that range. *)

From Stdlib Require Import ZArith NArith List String Ascii Bool Lia Permutation.
From Stdlib Require Import DecimalString DecimalPos DecimalZ.
Import ListNotations.

Local Open Scope string_scope.
Local Open Scope bool_scope.

(* ------------------------------------------------------------------ *)
(** ** Python built-ins *)
(* ------------------------------------------------------------------ *)

Module Py.

(** [ord(c)] *)
Definition ord (c : ascii) : N := N_of_ascii c.

(** [c.isspace()] for a code point below 256: TAB LF VT FF CR, the four
    separators FS GS RS US, SPACE, NEL (0x85) and NBSP (0xA0). *)
Definition isspace (c : ascii) : bool :=
  let n := ord c in
  ((9 <=? n) && (n <=? 13) || (28 <=? n) && (n <=? 32)
   || (n =? 133) || (n =? 160))%N.

(** [s.lstrip()] *)
Fixpoint lstrip (s : string) : string :=
  match s with
  | EmptyString => EmptyString
  | String c s' => if isspace c then lstrip s' else s
  end.

(** [s.rstrip()] *)
Fixpoint rstrip (s : string) : string :=
  match s with
  | EmptyString => EmptyString
  | String c s' =>
      match rstrip s' with
      | EmptyString => if isspace c then EmptyString else String c EmptyString
      | r => String c r
      end
  end.

(** [s.strip()] *)
Definition strip (s : string) : string := lstrip (rstrip s).

(** [len(s)] *)
Definition len (s : string) : nat := String.length s.

(** [bool(s)]: a string is true when it is not empty. *)
Definition truthy (s : string) : bool :=
  match s with EmptyString => false | String _ _ => true end.

(** [all(xs)] over a list of strings. *)
Definition all (xs : list string) : bool := forallb truthy xs.

(** Value of a decimal digit. *)
Definition digit_value (c : ascii) : option Z :=
  let n := ord c in
  if ((48 <=? n) && (n <=? 57))%N then Some (Z.of_N n - 48)%Z else None.

(** The interpreter's limit on the number of digits [int] converts
    ([sys.get_int_max_str_digits()], 4300 unless reconfigured). *)
Definition int_max_str_digits : Z := 4300.

(** The digit scan of [int]: digits, with single underscores allowed between
    two digits.  [acc] is the value read so far, [ndigits] the number of digits
    read, [prev_us] tells whether the previous character was an underscore.
    [None] is a [ValueError]. *)
Fixpoint scan_digits (acc ndigits : Z) (prev_us : bool) (s : string)
  : option (Z * Z) :=
  match s with
  | EmptyString => if prev_us then None else Some (acc, ndigits)
  | String c s' =>
      if (c =? "_")%char then
        if prev_us then None else scan_digits acc ndigits true s'
      else
        match digit_value c with
        | Some d => scan_digits (10 * acc + d)%Z (ndigits + 1)%Z false s'
        | None => None
        end
  end.

(** The white space [int] skips around a literal: TAB LF VT FF CR and
    SPACE, and the white space beyond ASCII (NEL, NBSP), which [int] first
    turns into spaces.  The separators FS GS RS US are not skipped. *)
Definition int_isspace (c : ascii) : bool :=
  let n := ord c in
  ((9 <=? n) && (n <=? 13) || (n =? 32) || (n =? 133) || (n =? 160))%N.

Fixpoint int_skip_leading (s : string) : string :=
  match s with
  | EmptyString => EmptyString
  | String c s' => if int_isspace c then int_skip_leading s' else s
  end.

Fixpoint int_skip_trailing (s : string) : string :=
  match s with
  | EmptyString => EmptyString
  | String c s' =>
      match int_skip_trailing s' with
      | EmptyString => if int_isspace c then EmptyString else String c EmptyString
      | r => String c r
      end
  end.

(** [int(s)] for a string argument (base 10): surrounding white space is
    skipped, then an optional sign, then at least one digit; the literal may
    not start with an underscore, and it may not have more digits than
    [int_max_str_digits].  [None] is a [ValueError]. *)
Definition int (s : string) : option Z :=
  let s := int_skip_leading (int_skip_trailing s) in
  let '(negative, body) :=
    match s with
    | String "+" r => (false, r)
    | String "-" r => (true, r)
    | _ => (false, s)
    end in
  match body with
  | EmptyString => None
  | String c _ =>
      if (c =? "_")%char then None
      else
        match scan_digits 0 0 false body with
        | Some (v, n) =>
            if (int_max_str_digits <? n)%Z then None
            else Some (if negative then (- v)%Z else v)
        | None => None
        end
  end.

(** [str(n)] for an integer, also what an f-string puts for [{n}]: the
    decimal digits, after a minus sign when negative. *)
Definition str (n : Z) : string := NilZero.string_of_int (Z.to_int n).

End Py.

(* ------------------------------------------------------------------ *)
(** ** The model class and the table behind it *)
(* ------------------------------------------------------------------ *)

(** A row of [users], as the class [User] declares it.  [created_at] is a
    point in time, counted in clock ticks. *)
Record User := mkUser {
  id : Z;
  first_name : string;
  last_name : string;
  email : string;
  age : Z;
  city : string;
  created_at : Z
}.

(** [User.__repr__] *)
Definition repr (self : User) : string :=
  "<User " ++ Py.str (id self) ++ ": " ++ first_name self ++ " "
  ++ last_name self ++ ">".

Module Sql.

(** The table, in rowid order (the order of a full scan). *)
Definition Table := list User.

(** Outcome of [db.session.commit()]: the new table, or an exception whose
    text is [str(e)]. *)
Inductive Commit :=
| Committed (db : Table)
| Raised (e : string).

(** The row that [User.query.get(pk)] selects: the row bearing the primary
    key [pk], if there is one. *)
Definition get (db : Table) (pk : Z) : option User :=
  find (fun u => (id u =? pk)%Z) db.

(** [User.query.filter_by(email=e).first()]; SQLite compares text with the
    BINARY collation, that is, exactly. *)
Definition first_by_email (db : Table) (e : string) : option User :=
  find (fun u => (email u =? e)%string) db.

(** The rowid SQLite gives to a row inserted without one: 1 in an empty
    table, else the largest rowid plus one.  (Rowids are 64-bit in SQLite; the
    model counts in [Z].) *)
Definition next_rowid (db : Table) : Z :=
  match db with
  | [] => 1
  | u :: db' => (fold_left Z.max (map id db') (id u) + 1)%Z
  end.

(** Text of the exception raised on a violation of [unique=True]. *)
Definition unique_failed : string := "UNIQUE constraint failed: users.email".

(** [db.session.add(User(...)); db.session.commit()].  The engine assigns the
    primary key and evaluates the column default of [created_at] at [now]; it
    refuses a second row with the same e-mail.  The declared lengths of the
    [String(n)] columns are not enforced by SQLite. *)
Definition insert (db : Table) (now : Z)
    (first_name' last_name' email' : string) (age' : Z) (city' : string)
  : Commit :=
  if existsb (fun u => (email u =? email')%string) db
  then Raised unique_failed
  else Committed (db ++ [mkUser (next_rowid db) first_name' last_name' email'
                                age' city' now])%list.

(** The assignments to the five attributes of the row [pk], followed by
    [db.session.commit()] (an [UPDATE ... WHERE id = pk]). *)
Definition update (db : Table) (pk : Z)
    (first_name' last_name' email' : string) (age' : Z) (city' : string)
  : Commit :=
  if existsb (fun u => negb (id u =? pk)%Z && (email u =? email')%string) db
  then Raised unique_failed
  else Committed
         (map (fun u =>
                 if (id u =? pk)%Z
                 then mkUser (id u) first_name' last_name' email' age' city'
                             (created_at u)
                 else u) db).

(** [db.session.delete(user); db.session.commit()]: no constraint of this
    schema can refuse it. *)
Definition delete (db : Table) (pk : Z) : Commit :=
  Committed (filter (fun u => negb (id u =? pk)%Z) db).

(** ASCII lower case: what SQLite's [lower()] does, and the only case
    folding its [LIKE] knows. *)
Definition lower_char (c : ascii) : ascii :=
  let n := Py.ord c in
  if ((65 <=? n) && (n <=? 90))%N then ascii_of_N (n + 32) else c.

Fixpoint lower (s : string) : string :=
  match s with
  | EmptyString => EmptyString
  | String c s' => String (lower_char c) (lower s')
  end.

(** The comparison at the heart of [LIKE]: in the pattern [%] stands for
    any run of characters, [_] for any single character; other characters
    match themselves up to ASCII case.  There is no escape character. *)
Fixpoint pattern_compare (pattern : string) : string -> bool :=
  match pattern with
  | EmptyString => fun text => negb (Py.truthy text)
  | String p pattern' =>
      if (p =? "%")%char then
        fix skip (text : string) : bool :=
          pattern_compare pattern' text
          || match text with
             | EmptyString => false
             | String _ text' => skip text'
             end
      else fun text =>
        match text with
        | EmptyString => false
        | String t text' =>
            ((p =? "_")%char || (lower_char p =? lower_char t)%char)
            && pattern_compare pattern' text'
        end
  end.

(** A text as the comparison reads it: up to its first NUL, which ends it. *)
Fixpoint c_str (s : string) : string :=
  match s with
  | EmptyString => EmptyString
  | String c s' => if (Py.ord c =? 0)%N then EmptyString else String c (c_str s')
  end.

(** The length of a text in bytes (UTF-8): a code point below 128 takes one
    byte, one from 128 to 255 two. *)
Fixpoint utf8_bytes (s : string) : N :=
  match s with
  | EmptyString => 0
  | String c s' => ((if Py.ord c <? 128 then 1 else 2) + utf8_bytes s')%N
  end.

(** [SQLITE_MAX_LIKE_PATTERN_LENGTH] *)
Definition max_like_pattern_length : N := 50000.

Definition pattern_too_complex : string := "LIKE or GLOB pattern too complex".

(** [text LIKE pattern], a truth value or an error: a pattern longer than
    the limit is refused; otherwise pattern and text are compared as far as
    their first NUL. *)
Definition like (pattern text : string) : bool + string :=
  if (max_like_pattern_length <? utf8_bytes pattern)%N
  then inr pattern_too_complex
  else inl (pattern_compare (c_str pattern) (c_str text)).

(** [column.ilike(pattern)], which the SQLite dialect renders as
    [lower(column) LIKE lower(pattern)]. *)
Definition ilike (column pattern : string) : bool + string :=
  like (lower pattern) (lower column).

(** [db.or_(...)]: the clauses from left to right, up to the first that is
    true; an error in a clause is the error of the whole. *)
Fixpoint or_ (clauses : list (bool + string)) : bool + string :=
  match clauses with
  | [] => inl false
  | inr e :: _ => inr e
  | inl true :: _ => inl true
  | inl false :: clauses' => or_ clauses'
  end.

(** [User.query.filter(clause).all()]: the rows for which [clause] is true,
    in scan order, or the error of the first row on which it fails. *)
Fixpoint select (clause : User -> bool + string) (db : Table)
  : list User + string :=
  match db with
  | [] => inl []
  | u :: db' =>
      match clause u with
      | inr e => inr e
      | inl keep =>
          match select clause db' with
          | inr e => inr e
          | inl rows => inl (if keep then u :: rows else rows)
          end
      end
  end.

(** The integers SQLite stores and the driver binds: 64 bits, signed. *)
Definition max_integer : Z := 9223372036854775807.

Definition fits (n : Z) : bool := ((- max_integer - 1 <=? n) && (n <=? max_integer))%Z.

(** [ORDER BY created_at DESC]: the rows by decreasing creation time.  Rows
    with the same time come out in an order the engine chooses; here they keep
    their scan order. *)
Fixpoint insert_desc (u : User) (sorted : list User) : list User :=
  match sorted with
  | [] => [u]
  | v :: sorted' =>
      if (created_at v <=? created_at u)%Z then u :: sorted
      else v :: insert_desc u sorted'
  end.

Fixpoint order_by_created_at_desc (db : Table) : list User :=
  match db with
  | [] => []
  | u :: db' => insert_desc u (order_by_created_at_desc db')
  end.

End Sql.

(* ------------------------------------------------------------------ *)
(** ** The request handlers *)
(* ------------------------------------------------------------------ *)

Module App.

Inductive Method := GET | POST.

(** [request.form] and [request.args]: a multi-dict, as a list of pairs. *)
Definition MultiDict := list (string * string).

(** [d.get(key, default)]: the first value stored under [key]. *)
Fixpoint get (d : MultiDict) (key default : string) : string :=
  match d with
  | [] => default
  | (k, v) :: d' => if (k =? key)%string then v else get d' key default
  end.

(** What a template is rendered with. *)
Inductive Context :=
| no_context
| with_user (user : User)
| with_search (users : list User) (query : string).

(** What a view function returns or raises: [abort] for the HTTP error of
    [get_or_404], [unhandled] for an exception the function does not catch,
    which the application answers with status 500. *)
Inductive Body :=
| render_template (template : string) (context : Context)
| redirect (endpoint : string)
| abort (status : Z)
| unhandled (exception : string).

(** A response: the messages passed to [flash(message, category)] during the
    request, in order, and the body. *)
Record Response := respond {
  flashed : list (string * string);
  body : Body
}.

(** The outcome of [User.query.get_or_404(user_id)] when no row bears
    the identifier: the 404 abort, or, for an identifier beyond the 64-bit
    integers, the [OverflowError] of the driver that cannot bind it.  The
    rowids of the engine are 64-bit integers, so such an identifier is never
    one that a row bears. *)
Definition no_such_user (user_id : Z) : Response :=
  if Sql.fits user_id then respond [] (abort 404)
  else respond [] (unhandled "OverflowError").

(** The [try: age = int(age) ... except ValueError:] block of [add_user] and
    [update_user]: the parsed age, or the message flashed. *)
Definition parse_age (age : string) : Z + string :=
  match Py.int age with
  | Some age =>
      if (age <=? 0)%Z || (150 <? age)%Z
      then inr "Please enter a valid age (1-150)!"
      else inl age
  | None => inr "Age must be a valid number!"
  end.

(** [add_user], route [/add]. *)
Definition add_user (method : Method) (form : MultiDict) (now : Z)
    (db : Sql.Table) : Sql.Table * Response :=
  let again flashes := (db, respond flashes (render_template "add.html" no_context)) in
  match method with
  | POST =>
      let first_name := Py.strip (get form "first_name" "") in
      let last_name := Py.strip (get form "last_name" "") in
      let email := Py.strip (get form "email" "") in
      let age := Py.strip (get form "age" "") in
      let city := Py.strip (get form "city" "") in
      if negb (Py.all [first_name; last_name; email; age; city]) then
        again [("All fields are required!", "error")]
      else if (Py.len first_name <? 2)%nat || (50 <? Py.len first_name)%nat then
        again [("First name must be between 2 and 50 characters!", "error")]
      else if (Py.len last_name <? 2)%nat || (50 <? Py.len last_name)%nat then
        again [("Last name must be between 2 and 50 characters!", "error")]
      else
        match parse_age age with
        | inr message => again [(message, "error")]
        | inl age =>
            if (Py.len city <? 2)%nat || (50 <? Py.len city)%nat then
              again [("City must be between 2 and 50 characters!", "error")]
            else
              match Sql.first_by_email db email with
              | Some existing_user =>
                  again [("Email already exists! Please use a different email.",
                          "error")]
              | None =>
                  match Sql.insert db now first_name last_name email age city with
                  | Sql.Committed db' =>
                      (db', respond [("User added successfully!", "success")]
                                    (redirect "index"))
                  | Sql.Raised e =>
                      again [("Error adding user: " ++ e, "error")]
                  end
              end
        end
  | GET => again []
  end.

(** [view_user], route [/view/<int:user_id>]. *)
Definition view_user (user_id : Z) (db : Sql.Table) : Response :=
  match Sql.get db user_id with
  | Some user => respond [] (render_template "view.html" (with_user user))
  | None => no_such_user user_id
  end.

(** [update_user], route [/update/<int:user_id>]. *)
Definition update_user (user_id : Z) (method : Method) (form : MultiDict)
    (db : Sql.Table) : Sql.Table * Response :=
  match Sql.get db user_id with
  | None => (db, no_such_user user_id)
  | Some user =>
      let again flashes :=
        (db, respond flashes (render_template "update.html" (with_user user))) in
      match method with
      | POST =>
          let first_name := Py.strip (get form "first_name" "") in
          let last_name := Py.strip (get form "last_name" "") in
          let email := Py.strip (get form "email" "") in
          let age := Py.strip (get form "age" "") in
          let city := Py.strip (get form "city" "") in
          if negb (Py.all [first_name; last_name; email; age; city]) then
            again [("All fields are required!", "error")]
          else if (Py.len first_name <? 2)%nat || (50 <? Py.len first_name)%nat then
            again [("First name must be between 2 and 50 characters!", "error")]
          else if (Py.len last_name <? 2)%nat || (50 <? Py.len last_name)%nat then
            again [("Last name must be between 2 and 50 characters!", "error")]
          else
            match parse_age age with
            | inr message => again [(message, "error")]
            | inl age =>
                if (Py.len city <? 2)%nat || (50 <? Py.len city)%nat then
                  again [("City must be between 2 and 50 characters!", "error")]
                else
                  let existing_user := Sql.first_by_email db email in
                  if match existing_user with
                     | Some existing_user => negb (id existing_user =? user_id)%Z
                     | None => false
                     end
                  then
                    again [("Email already exists! Please use a different email.",
                            "error")]
                  else
                    match Sql.update db user_id first_name last_name email age city with
                    | Sql.Committed db' =>
                        (db', respond [("User updated successfully!", "success")]
                                      (redirect "index"))
                    | Sql.Raised e =>
                        again [("Error updating user: " ++ e, "error")]
                    end
            end
      | GET => again []
      end
  end.

(** [delete_user], route [/delete/<int:user_id>]. *)
Definition delete_user (user_id : Z) (db : Sql.Table) : Sql.Table * Response :=
  match Sql.get db user_id with
  | None => (db, no_such_user user_id)
  | Some user =>
      match Sql.delete db user_id with
      | Sql.Committed db' =>
          (db', respond [("User " ++ first_name user ++ " " ++ last_name user
                            ++ " deleted successfully!", "success")]
                        (redirect "index"))
      | Sql.Raised e =>
          (db, respond [("Error deleting user: " ++ e, "error")]
                       (redirect "index"))
      end
  end.

(** [search_users], route [/search].  The function catches nothing: an
    error of the query is an unhandled [OperationalError]. *)
Definition search_users (args : MultiDict) (db : Sql.Table) : Response :=
  let query := Py.strip (get args "query" "") in
  if Py.truthy query then
    let search_pattern := "%" ++ query ++ "%" in
    match Sql.select (fun u => Sql.or_ [Sql.ilike (first_name u) search_pattern;
                                        Sql.ilike (last_name u) search_pattern;
                                        Sql.ilike (city u) search_pattern]) db with
    | inl users =>
        respond [] (render_template "search.html" (with_search users query))
    | inr e => respond [] (unhandled "OperationalError")
    end
  else
    respond [] (render_template "search.html" (with_search [] query)).

(** What [index] renders: the template and its argument [users]. *)
Record Listing := listing {
  template : string;
  users : list User
}.

(** [index], route [/]. *)
Definition index (db : Sql.Table) : Listing :=
  let users := Sql.order_by_created_at_desc db in
  listing "index.html" users.

End App.

(* ------------------------------------------------------------------ *)
(** ** The specification's validator and vocabulary *)
(* ------------------------------------------------------------------ *)

Module Validator.

(** A candidate set of field values. *)
Record Candidate := mkCandidate {
  c_first_name : string;
  c_last_name : string;
  c_email : string;
  c_age : string;
  c_city : string
}.

(** An accepted, normalized value set. *)
Record Normalized := mkNormalized {
  n_first_name : string;
  n_last_name : string;
  n_email : string;
  n_age : Z;
  n_city : string
}.

(** The reasons of a rejection. *)
Inductive Reason :=
| missing_fields
| first_name_length
| last_name_length
| invalid_age_format
| age_out_of_range
| city_length.

(** The human-readable text of each reason. *)
Definition message (r : Reason) : string :=
  match r with
  | missing_fields => "All fields are required!"
  | first_name_length => "First name must be between 2 and 50 characters!"
  | last_name_length => "Last name must be between 2 and 50 characters!"
  | invalid_age_format => "Age must be a valid number!"
  | age_out_of_range => "Please enter a valid age (1-150)!"
  | city_length => "City must be between 2 and 50 characters!"
  end.

(** Every field trimmed of surrounding white space. *)
Definition trim (c : Candidate) : Candidate :=
  mkCandidate (Py.strip (c_first_name c)) (Py.strip (c_last_name c))
              (Py.strip (c_email c)) (Py.strip (c_age c)) (Py.strip (c_city c)).

(** A check looks at the trimmed values and may object. *)
Definition Check := Candidate -> option Reason.

Definition nonempty (s : string) : bool := negb (s =? "")%string.

Definition length_in (lo hi : nat) (s : string) : bool :=
  ((lo <=? String.length s) && (String.length s <=? hi))%nat.

(** 1. Presence: all five fields non-empty. *)
Definition check_presence : Check := fun c =>
  if nonempty (c_first_name c) && nonempty (c_last_name c)
     && nonempty (c_email c) && nonempty (c_age c) && nonempty (c_city c)
  then None else Some missing_fields.

(** 2. First and last name: length in [2,50]. *)
Definition check_first_name : Check := fun c =>
  if length_in 2 50 (c_first_name c) then None else Some first_name_length.

Definition check_last_name : Check := fun c =>
  if length_in 2 50 (c_last_name c) then None else Some last_name_length.

(** 3. Age: must parse as an integer, then lie in [1,150]. *)
Definition check_age_format : Check := fun c =>
  match Py.int (c_age c) with
  | Some _ => None
  | None => Some invalid_age_format
  end.

Definition check_age_range : Check := fun c =>
  match Py.int (c_age c) with
  | Some n => if ((1 <=? n) && (n <=? 150))%Z then None else Some age_out_of_range
  | None => None
  end.

(** 4. City: length in [2,50]. *)
Definition check_city : Check := fun c =>
  if length_in 2 50 (c_city c) then None else Some city_length.

(** The checks, in the order in which they are evaluated. *)
Definition checks : list Check :=
  [check_presence; check_first_name; check_last_name;
   check_age_format; check_age_range; check_city].

(** The reason of the first check of [cs] that fails, if one does. *)
Fixpoint first_failure (cs : list Check) (c : Candidate) : option Reason :=
  match cs with
  | [] => None
  | check :: cs' =>
      match check c with
      | Some r => Some r
      | None => first_failure cs' c
      end
  end.

(** The validator: a rejection with one reason, or the normalized values. *)
Definition validate (c : Candidate) : Reason + Normalized :=
  let t := trim c in
  match first_failure checks t with
  | Some r => inl r
  | None =>
      inr (mkNormalized (c_first_name t) (c_last_name t) (c_email t)
                        (match Py.int (c_age t) with Some n => n | None => 0%Z end)
                        (c_city t))
  end.

End Validator.

Module Spec.

Import App Validator.

(** The candidate a submitted form carries. *)
Definition candidate (form : MultiDict) : Candidate :=
  mkCandidate (get form "first_name" "") (get form "last_name" "")
              (get form "email" "") (get form "age" "") (get form "city" "").

(** The flashed messages the specification names. *)
Definition duplicate_email : string * string :=
  ("Email already exists! Please use a different email.", "error").

Definition added : string * string := ("User added successfully!", "success").

Definition updated : string * string := ("User updated successfully!", "success").

Definition not_found : Response := respond [] (abort 404).

(** A rejection by [add_user]: the message, the form shown again, the table
    as it was. *)
Definition add_rejected (db : Sql.Table) (flash : string * string)
  : Sql.Table * Response :=
  (db, respond [flash] (render_template "add.html" no_context)).

(** A rejection by [update_user] of a change to [user]. *)
Definition update_rejected (db : Sql.Table) (user : User)
    (flash : string * string) : Sql.Table * Response :=
  (db, respond [flash] (render_template "update.html" (with_user user))).

(** Create, once the validator has accepted: the e-mail pre-check, then the
    insertion. *)
Definition create (n : Normalized) (now : Z) (db : Sql.Table)
  : Sql.Table * Response :=
  match Sql.first_by_email db (n_email n) with
  | Some _ => add_rejected db duplicate_email
  | None =>
      match Sql.insert db now (n_first_name n) (n_last_name n) (n_email n)
                       (n_age n) (n_city n) with
      | Sql.Committed db' => (db', respond [added] (redirect "index"))
      | Sql.Raised e => add_rejected db ("Error adding user: " ++ e, "error")
      end
  end.

(** Update of the record [user] found under [user_id], once the validator
    has accepted: the pre-check for a different record owning the e-mail,
    then the replacement of the five fields. *)
Definition change (user_id : Z) (user : User) (n : Normalized)
    (db : Sql.Table) : Sql.Table * Response :=
  let owned_by_another :=
    match Sql.first_by_email db (n_email n) with
    | Some other => negb (id other =? user_id)%Z
    | None => false
    end in
  if owned_by_another then update_rejected db user duplicate_email
  else
    match Sql.update db user_id (n_first_name n) (n_last_name n) (n_email n)
                     (n_age n) (n_city n) with
    | Sql.Committed db' => (db', respond [updated] (redirect "index"))
    | Sql.Raised e =>
        update_rejected db user ("Error updating user: " ++ e, "error")
    end.

(** The constraints the table declares: [id] is the primary key and [email]
    is unique. *)
Definition consistent (db : Sql.Table) : Prop :=
  NoDup (map id db) /\ NoDup (map email db).

(** [s] begins with [q], up to ASCII case. *)
Fixpoint starts_with_ci (q s : string) : bool :=
  match q, s with
  | EmptyString, _ => true
  | String _ _, EmptyString => false
  | String a q', String b s' =>
      (Sql.lower_char a =? Sql.lower_char b)%char && starts_with_ci q' s'
  end.

(** [s] contains [q] as a substring, up to ASCII case. *)
Fixpoint contains_ci (s q : string) : bool :=
  starts_with_ci q s
  || match s with
     | EmptyString => false
     | String _ s' => contains_ci s' q
     end.

(** A query without the two pattern characters of [LIKE]. *)
Fixpoint wildcard_free (q : string) : bool :=
  match q with
  | EmptyString => true
  | String c q' => negb (c =? "%")%char && negb (c =? "_")%char && wildcard_free q'
  end.

(** [Like pattern text]: the text matches the pattern, where [%] stands for
    any run of characters, [_] for any one character, and every other
    character for itself up to ASCII case. *)
Inductive Like : string -> string -> Prop :=
| Like_end : Like "" ""
| Like_run : forall pattern run text,
    Like pattern text -> Like (String "%" pattern) (run ++ text)
| Like_one : forall pattern c text,
    Like pattern text -> Like (String "_" pattern) (String c text)
| Like_char : forall p pattern c text,
    p <> "%"%char -> p <> "_"%char ->
    Sql.lower_char p = Sql.lower_char c ->
    Like pattern text -> Like (String p pattern) (String c text).

(** All characters of [s] are white space. *)
Fixpoint blank (s : string) : bool :=
  match s with
  | EmptyString => true
  | String c s' => Py.isspace c && blank s'
  end.

(** The last character of a non-empty string. *)
Fixpoint last_char (s : string) : option ascii :=
  match s with
  | EmptyString => None
  | String c EmptyString => Some c
  | String _ s' => last_char s'
  end.

(** [t] is [s] without its leading and trailing white space. *)
Definition Trimmed (s t : string) : Prop :=
  (exists l r, s = l ++ t ++ r /\ blank l = true /\ blank r = true)
  /\ match t with
     | EmptyString => True
     | String c _ =>
         Py.isspace c = false
         /\ match last_char t with Some d => Py.isspace d = false | None => False end
     end.

(** A plain decimal numeral: one or more digits. *)
Fixpoint numeral_value (acc : Z) (s : string) : option Z :=
  match s with
  | EmptyString => Some acc
  | String c s' =>
      match Py.digit_value c with
      | Some d => numeral_value (10 * acc + d)%Z s'
      | None => None
      end
  end.

(** The row [u] after an update of the record [pk]: the five editable
    fields replaced in the record [pk], any other row as it was. *)
Definition replaced (pk : Z) (n : Normalized) (u : User) : User :=
  if (id u =? pk)%Z
  then mkUser (id u) (n_first_name n) (n_last_name n) (n_email n) (n_age n)
              (n_city n) (created_at u)
  else u.

(** An e-mail of 121 characters. *)
Definition long_email : string :=
  "aaaaaaaaaaaaaaaaaaaaaaaaaaaaaaaaaaaaaaaaaaaaaaaaaaaaaaaaaaaaaaaaaaaaaaaaaaaaaaaaaaaaaaaaaaaaaaaaaaaaaaaaaaaaa@example.com".

(** The field names of the form. *)
Definition field_names : list string :=
  ["first_name"; "last_name"; "email"; "age"; "city"].

(** What the checks of the handlers guarantee of a row: trimmed strings, the
    two names and the city of 2 to 50 characters, a non-empty e-mail, an age
    from 1 to 150. *)
Definition checked (u : User) : Prop :=
  Py.strip (first_name u) = first_name u
  /\ 2 <= String.length (first_name u) <= 50
  /\ Py.strip (last_name u) = last_name u
  /\ 2 <= String.length (last_name u) <= 50
  /\ Py.strip (email u) = email u
  /\ 1 <= String.length (email u)
  /\ (1 <= age u <= 150)%Z
  /\ Py.strip (city u) = city u
  /\ 2 <= String.length (city u) <= 50.

(** The rows are in decreasing order of creation time. *)
Fixpoint newest_first (l : list User) : Prop :=
  match l with
  | [] => True
  | u :: l' =>
      (forall v, In v l' -> (created_at v <= created_at u)%Z) /\ newest_first l'
  end.

(** [c] occurs in [s]. *)
Fixpoint occurs (c : ascii) (s : string) : bool :=
  match s with
  | EmptyString => false
  | String d s' => (c =? d)%char || occurs c s'
  end.

(** The character NUL. *)
Definition NUL : ascii := "000"%char.

(** A query an exact substring search can be asked for: it holds none of
    the two pattern characters and no NUL. *)
Definition plain (q : string) : bool :=
  wildcard_free q && negb (occurs NUL q).

(** The three searched fields of the row hold no NUL. *)
Definition searchable (u : User) : Prop :=
  occurs NUL (first_name u) = false
  /\ occurs NUL (last_name u) = false
  /\ occurs NUL (city u) = false.

(** The pattern built from the query is within the length limit of [LIKE]. *)
Definition within_limit (q : string) : Prop :=
  (Sql.utf8_bytes ("%" ++ q ++ "%") <= Sql.max_like_pattern_length)%N.

(** The row matches the pattern in one of the three searched fields, each
    read up to its first NUL. *)
Definition matches (pattern : string) (u : User) : bool :=
  Sql.pattern_compare (Sql.c_str pattern) (Sql.c_str (first_name u))
  || Sql.pattern_compare (Sql.c_str pattern) (Sql.c_str (last_name u))
  || Sql.pattern_compare (Sql.c_str pattern) (Sql.c_str (city u)).

End Spec.

(** Case analysis over the 256 characters. *)
Ltac each_char c :=
  destruct c as [[] [] [] [] [] [] [] []]; try reflexivity; try discriminate.

(* ------------------------------------------------------------------ *)
(** ** Facts about the built-ins *)
(* ------------------------------------------------------------------ *)

Import App Validator Spec.

Example strip_ex : Py.strip "  John Doe	 " = "John Doe".
Proof. reflexivity. Qed.
Example int_ex_plain : Py.int "150" = Some 150%Z. Proof. reflexivity. Qed.
Example int_ex_minus : Py.int "-5" = Some (-5)%Z. Proof. reflexivity. Qed.
Example int_ex_letters : Py.int "abc" = None. Proof. reflexivity. Qed.
Example int_ex_underscore : Py.int "1_0" = Some 10%Z. Proof. reflexivity. Qed.
Example int_ex_underscores : Py.int "1__0" = None. Proof. reflexivity. Qed.
Example int_ex_sign_only : Py.int "+" = None. Proof. reflexivity. Qed.
Example int_ex_padded : Py.int " 007 " = Some 7%Z. Proof. reflexivity. Qed.
Example int_ex_inner_space : Py.int "1 0" = None. Proof. reflexivity. Qed.
Example int_ex_nbsp :
  Py.int (String (ascii_of_nat 160) "5") = Some 5%Z
  /\ Py.strip (String (ascii_of_nat 160) "5") = "5".
Proof. split; reflexivity. Qed.
Example int_ex_separator :
  Py.int (String (ascii_of_nat 28) "7") = None
  /\ Py.strip (String (ascii_of_nat 28) "7") = "7".
Proof. split; reflexivity. Qed.
Example int_ex_digit_limit :
  Py.int (String.concat "" (repeat "1" 4300)) <> None
  /\ Py.int (String.concat "" (repeat "0" 4301)) = None.
Proof. split; vm_compute; congruence. Qed.
Example ilike_ex_case : Sql.ilike "New York" "%YORK%" = inl true.
Proof. reflexivity. Qed.
Example ilike_ex_one : Sql.ilike "John" "%j_h%" = inl true.
Proof. reflexivity. Qed.
Example ilike_ex_miss : Sql.ilike "John" "%jon%" = inl false.
Proof. reflexivity. Qed.
Example ilike_ex_patterns :
  map (fun '(column, pattern) => Sql.ilike column pattern)
      [("John", "%_%"); ("", "%_%"); ("a%b", "%\%%"); ("John", "%%%");
       ("John", "%"); ("", "%%")]
  = map inl [true; false; false; true; true; true].
Proof. reflexivity. Qed.
Example ilike_ex_nul :
  Sql.ilike (String "J" (String "o" (String NUL "hn"))) "%hn%" = inl false
  /\ Sql.ilike "John" (String "%" (String NUL "%")) = inl true.
Proof. split; reflexivity. Qed.
Example ilike_ex_limit :
  Sql.ilike "John" (String.concat "" (repeat "a" (N.to_nat 50000))) = inl false
  /\ Sql.ilike "John" (String.concat "" (repeat "a" (N.to_nat 50001)))
     = inr Sql.pattern_too_complex.
Proof. split; vm_compute; reflexivity. Qed.
Example no_such_user_ex :
  no_such_user 99999 = respond [] (abort 404)
  /\ no_such_user 9223372036854775807 = respond [] (abort 404)
  /\ no_such_user 9223372036854775808 = respond [] (unhandled "OverflowError").
Proof. repeat split. Qed.

Lemma truthy_nonempty (s : string) : Py.truthy s = nonempty s.
Proof. destruct s; reflexivity. Qed.

Lemma truthy_false (s : string) : Py.truthy s = false <-> s = "".
Proof. destruct s; simpl; split; congruence. Qed.

Lemma len_outside (s : string) :
  ((Py.len s <? 2)%nat || (50 <? Py.len s)%nat) = negb (length_in 2 50 s).
Proof.
  unfold length_in, Py.len.
  destruct (Nat.ltb_spec (String.length s) 2), (Nat.ltb_spec 50 (String.length s)),
    (Nat.leb_spec 2 (String.length s)), (Nat.leb_spec (String.length s) 50);
    simpl; try reflexivity; lia.
Qed.

Lemma age_outside (n : Z) :
  ((n <=? 0)%Z || (150 <? n)%Z) = negb ((1 <=? n)%Z && (n <=? 150)%Z).
Proof.
  destruct (Z.leb_spec n 0), (Z.ltb_spec 150 n), (Z.leb_spec 1 n),
    (Z.leb_spec n 150); simpl; try reflexivity; lia.
Qed.

Lemma parse_age_checks (t : Candidate) :
  parse_age (c_age t) =
    match check_age_format t with
    | Some r => inr (message r)
    | None =>
        match check_age_range t with
        | Some r => inr (message r)
        | None => inl (match Py.int (c_age t) with Some n => n | None => 0%Z end)
        end
    end.
Proof.
  unfold parse_age, check_age_format, check_age_range.
  destruct (Py.int (c_age t)) as [n|]; [|reflexivity].
  rewrite age_outside. destruct ((1 <=? n)%Z && (n <=? 150)%Z); reflexivity.
Qed.

Lemma first_failure_app (cs cs' : list Check) (c : Candidate) :
  first_failure (cs ++ cs') c =
    match first_failure cs c with
    | Some r => Some r
    | None => first_failure cs' c
    end.
Proof.
  induction cs as [|k cs IH]; simpl; [reflexivity|].
  destruct (k c); [reflexivity|exact IH].
Qed.

Lemma first_failure_split (cs : list Check) (c : Candidate) (r : Reason) :
  first_failure cs c = Some r <->
  exists before check after,
    cs = (before ++ check :: after)%list
    /\ Forall (fun k => k c = None) before
    /\ check c = Some r.
Proof.
  induction cs as [|k cs IH]; simpl.
  - split; [discriminate|]. intros (b & k & a & E & _). destruct b; discriminate.
  - destruct (k c) as [r'|] eqn:Ek.
    + split.
      * intros [= ->]. exists [], k, cs. repeat split; auto.
      * intros (b & k' & a & E & Hb & Hk).
        destruct b as [|k0 b]; simpl in E; injection E as -> ->.
        -- congruence.
        -- inversion Hb; congruence.
    + rewrite IH. split.
      * intros (b & k' & a & -> & Hb & Hk).
        exists (k :: b), k', a. repeat split; auto.
      * intros (b & k' & a & E & Hb & Hk).
        destruct b as [|k0 b]; simpl in E; injection E as -> ->.
        -- congruence.
        -- exists b, k', a. inversion Hb; repeat split; auto.
Qed.

(** The validator, unfolded along the handlers' [if] cascade. *)
Lemma validate_cascade (c : Candidate) :
  let t := trim c in
  validate c =
    if negb (Py.all [c_first_name t; c_last_name t; c_email t; c_age t; c_city t])
    then inl missing_fields
    else if (Py.len (c_first_name t) <? 2)%nat || (50 <? Py.len (c_first_name t))%nat
    then inl first_name_length
    else if (Py.len (c_last_name t) <? 2)%nat || (50 <? Py.len (c_last_name t))%nat
    then inl last_name_length
    else
      match Py.int (c_age t) with
      | None => inl invalid_age_format
      | Some n =>
          if (n <=? 0)%Z || (150 <? n)%Z then inl age_out_of_range
          else if (Py.len (c_city t) <? 2)%nat || (50 <? Py.len (c_city t))%nat
          then inl city_length
          else inr (mkNormalized (c_first_name t) (c_last_name t) (c_email t)
                                 n (c_city t))
      end.
Proof.
  intros t. unfold validate. fold t. clearbody t.
  unfold checks, first_failure, check_presence, check_first_name,
    check_last_name, check_age_format, check_age_range, check_city, Py.all.
  cbn [forallb]. rewrite !truthy_nonempty, !len_outside, andb_true_r, !andb_assoc.
  destruct (nonempty (c_first_name t) && nonempty (c_last_name t)
            && nonempty (c_email t) && nonempty (c_age t)
            && nonempty (c_city t)); cbn [negb]; [|reflexivity].
  destruct (length_in 2 50 (c_first_name t)); cbn [negb]; [|reflexivity].
  destruct (length_in 2 50 (c_last_name t)); cbn [negb]; [|reflexivity].
  destruct (Py.int (c_age t)) as [n|]; [|reflexivity].
  rewrite age_outside.
  destruct ((1 <=? n)%Z && (n <=? 150)%Z); cbn [negb]; [|reflexivity].
  destruct (length_in 2 50 (c_city t)); reflexivity.
Qed.

(* ------------------------------------------------------------------ *)
(** ** The handlers against the validator *)
(* ------------------------------------------------------------------ *)

(** A POST to [/add] is the validator followed by [create]. *)
Lemma add_user_post (form : MultiDict) (now : Z) (db : Sql.Table) :
  add_user POST form now db =
    match validate (candidate form) with
    | inl reason => add_rejected db (message reason, "error")
    | inr n => create n now db
    end.
Proof.
  rewrite validate_cascade. unfold add_user, candidate, trim, parse_age.
  cbn [c_first_name c_last_name c_email c_age c_city].
  destruct (negb (Py.all _)); [reflexivity|].
  destruct (_ || _); [reflexivity|].
  destruct (_ || _); [reflexivity|].
  destruct (Py.int _) as [n|]; [|reflexivity].
  destruct (_ || _); [reflexivity|].
  destruct (_ || _); [reflexivity|].
  unfold create. cbn [n_first_name n_last_name n_email n_age n_city].
  destruct (Sql.first_by_email _ _); [reflexivity|].
  destruct (Sql.insert _ _ _ _ _ _ _); reflexivity.
Qed.

(** A POST to [/update/<user_id>] resolves the record, then is the validator
    followed by [change]. *)
Lemma update_user_post (user_id : Z) (form : MultiDict) (db : Sql.Table) :
  update_user user_id POST form db =
    match Sql.get db user_id with
    | None => (db, no_such_user user_id)
    | Some user =>
        match validate (candidate form) with
        | inl reason => update_rejected db user (message reason, "error")
        | inr n => change user_id user n db
        end
    end.
Proof.
  unfold update_user. destruct (Sql.get db user_id) as [user|]; [|reflexivity].
  rewrite validate_cascade. unfold candidate, trim, parse_age.
  cbn [c_first_name c_last_name c_email c_age c_city].
  destruct (negb (Py.all _)); [reflexivity|].
  destruct (_ || _); [reflexivity|].
  destruct (_ || _); [reflexivity|].
  destruct (Py.int _) as [n|]; [|reflexivity].
  destruct (_ || _); [reflexivity|].
  destruct (_ || _); [reflexivity|].
  unfold change. cbn [n_first_name n_last_name n_email n_age n_city].
  destruct (Sql.first_by_email _ _) as [other|].
  - destruct (negb _); [reflexivity|].
    destruct (Sql.update _ _ _ _ _ _ _); reflexivity.
  - destruct (Sql.update _ _ _ _ _ _ _); reflexivity.
Qed.

(** C4. The validation checks run in the fixed order presence, first-name
    length, last-name length, age format, age range, city length; a rejected
    field set is rejected with the reason of the first check that fails, which
    makes the message a function of the input; [add_user] and [update_user]
    apply the same validator, each showing its own form again with that
    message and leaving the table as it was. *)
Theorem validation_fixed_order (form : MultiDict) (now : Z) (db : Sql.Table)
    (user_id : Z) :
  checks = [check_presence; check_first_name; check_last_name;
            check_age_format; check_age_range; check_city]
  /\ (forall reason,
        validate (candidate form) = inl reason <->
        exists before check after,
          checks = (before ++ check :: after)%list
          /\ Forall (fun earlier => earlier (trim (candidate form)) = None) before
          /\ check (trim (candidate form)) = Some reason)
  /\ add_user POST form now db =
       match validate (candidate form) with
       | inl reason => add_rejected db (message reason, "error")
       | inr n => create n now db
       end
  /\ update_user user_id POST form db =
       match Sql.get db user_id with
       | None => (db, no_such_user user_id)
       | Some user =>
           match validate (candidate form) with
           | inl reason => update_rejected db user (message reason, "error")
           | inr n => change user_id user n db
           end
       end.
Proof.
  split; [reflexivity|]. split; [|split].
  - intros reason. rewrite <- first_failure_split. unfold validate.
    destruct (first_failure checks (trim (candidate form))) as [r|].
    + split; congruence.
    + split; discriminate.
  - apply add_user_post.
  - apply update_user_post.
Qed.

(* ------------------------------------------------------------------ *)
(** ** Trimming *)
(* ------------------------------------------------------------------ *)

Lemma lstrip_prefix (s : string) :
  exists l, s = l ++ Py.lstrip s /\ blank l = true.
Proof.
  induction s as [|c s (l & E & B)]; simpl.
  - exists ""; auto.
  - destruct (Py.isspace c) eqn:W.
    + exists (String c l); simpl. rewrite W, B, <- E. auto.
    + exists ""; auto.
Qed.

Lemma lstrip_head (s : string) (c : ascii) (r : string) :
  Py.lstrip s = String c r -> Py.isspace c = false.
Proof.
  induction s as [|d s IH]; simpl; [discriminate|].
  destruct (Py.isspace d) eqn:W; [exact IH|]. intros [= -> _]. exact W.
Qed.

Lemma lstrip_last (s : string) :
  Py.lstrip s <> "" -> last_char (Py.lstrip s) = last_char s.
Proof.
  induction s as [|d s IH]; simpl; [congruence|].
  destruct (Py.isspace d); [|reflexivity].
  intros N. rewrite (IH N). destruct s; [contradiction N; reflexivity|reflexivity].
Qed.

Lemma rstrip_suffix (s : string) :
  exists r, s = Py.rstrip s ++ r /\ blank r = true.
Proof.
  induction s as [|c s (r & E & B)]; simpl.
  - exists ""; auto.
  - destruct (Py.rstrip s) as [|d t] eqn:R.
    + destruct (Py.isspace c) eqn:W.
      * exists (String c r); simpl in *. rewrite W, B, <- E. auto.
      * exists r; simpl in *. subst s. auto.
    + exists r. simpl in *. rewrite <- E. auto.
Qed.

Lemma rstrip_last (s : string) (d : ascii) :
  last_char (Py.rstrip s) = Some d -> Py.isspace d = false.
Proof.
  induction s as [|c s IH]; simpl; [discriminate|].
  destruct (Py.rstrip s) as [|e t] eqn:R.
  - destruct (Py.isspace c) eqn:W; simpl; [discriminate|]. intros [= <-]. exact W.
  - exact IH.
Qed.

(** [strip] removes exactly the leading and trailing white space. *)
Lemma strip_trimmed (s : string) : Trimmed s (Py.strip s).
Proof.
  unfold Trimmed, Py.strip. split.
  - destruct (rstrip_suffix s) as (r & Er & Br).
    destruct (lstrip_prefix (Py.rstrip s)) as (l & El & Bl).
    exists l, r. repeat split; auto.
    rewrite Er at 1. rewrite El at 1.
    clear. induction l; simpl; congruence.
  - destruct (Py.lstrip (Py.rstrip s)) as [|c t] eqn:E; [exact I|].
    split; [exact (lstrip_head _ _ _ E)|].
    rewrite <- E, lstrip_last by congruence.
    destruct (last_char (Py.rstrip s)) as [d|] eqn:L.
    + exact (rstrip_last _ _ L).
    + destruct (Py.rstrip s) as [|x y]; [discriminate|].
      clear -L. revert x L. induction y; intros x L; simpl in L; [discriminate|].
      eapply IHy; eassumption.
Qed.

Lemma rstrip_fixed (s : string) :
  match last_char s with Some d => Py.isspace d = false | None => True end ->
  Py.rstrip s = s.
Proof.
  induction s as [|c s IH]; [reflexivity|]. cbn [Py.rstrip last_char].
  destruct s as [|d s].
  - intros ->. reflexivity.
  - intros H. rewrite (IH H). reflexivity.
Qed.

Lemma last_char_none (s : string) : last_char s = None -> s = "".
Proof.
  induction s as [|c s IH]; [reflexivity|]. simpl.
  destruct s; [discriminate|]. intros H. discriminate (IH H).
Qed.

(** Trimming twice is trimming once. *)
Lemma strip_idem (s : string) : Py.strip (Py.strip s) = Py.strip s.
Proof.
  destruct (strip_trimmed s) as [_ T].
  destruct (Py.strip s) as [|c t] eqn:E; [reflexivity|].
  destruct T as [Hc Hl]. unfold Py.strip.
  rewrite rstrip_fixed.
  - simpl. rewrite Hc. reflexivity.
  - destruct (last_char (String c t)); [exact Hl|exact I].
Qed.

(** What an accepted value set is made of. *)
Lemma validate_accepted (c : Candidate) (n : Normalized) :
  validate c = inr n ->
  n_first_name n = Py.strip (c_first_name c)
  /\ n_last_name n = Py.strip (c_last_name c)
  /\ n_email n = Py.strip (c_email c)
  /\ Py.int (Py.strip (c_age c)) = Some (n_age n)
  /\ n_city n = Py.strip (c_city c)
  /\ n_email n <> ""
  /\ (1 <= n_age n <= 150)%Z.
Proof.
  rewrite validate_cascade. unfold trim, Py.all.
  cbn [c_first_name c_last_name c_email c_age c_city forallb].
  destruct (Py.truthy (Py.strip (c_first_name c))); [|discriminate].
  destruct (Py.truthy (Py.strip (c_last_name c))); [|discriminate].
  destruct (Py.truthy (Py.strip (c_email c))) eqn:Te; [|simpl; discriminate].
  destruct (Py.truthy (Py.strip (c_age c))); [|simpl; discriminate].
  destruct (Py.truthy (Py.strip (c_city c))); [|simpl; discriminate].
  cbn [andb negb].
  destruct ((Py.len (Py.strip (c_first_name c)) <? 2)%nat || _); [discriminate|].
  destruct ((Py.len (Py.strip (c_last_name c)) <? 2)%nat || _); [discriminate|].
  destruct (Py.int _) as [a|]; [|discriminate].
  destruct ((a <=? 0)%Z || _) eqn:Ea; [discriminate|].
  destruct ((Py.len (Py.strip (c_city c)) <? 2)%nat || _); [discriminate|].
  intros [= <-]. cbn. repeat split; auto.
  - intros E. rewrite E in Te. discriminate.
  - rewrite age_outside in Ea. apply negb_false_iff, andb_true_iff in Ea. lia.
  - rewrite age_outside in Ea. apply negb_false_iff, andb_true_iff in Ea. lia.
Qed.

(* ------------------------------------------------------------------ *)
(** ** Facts about the table *)
(* ------------------------------------------------------------------ *)

Lemma fold_max_ge (l : list Z) (a : Z) :
  (a <= fold_left Z.max l a)%Z
  /\ forall x, In x l -> (x <= fold_left Z.max l a)%Z.
Proof.
  revert a. induction l as [|y l IH]; intros a; simpl.
  - split; [lia|tauto].
  - destruct (IH (Z.max a y)) as [H1 H2]. split; [lia|].
    intros x [<-|Hx]; [lia|auto].
Qed.

(** The next rowid lies above every rowid in use. *)
Lemma next_rowid_above (db : Sql.Table) (u : User) :
  In u db -> (id u < Sql.next_rowid db)%Z.
Proof.
  destruct db as [|v db]; [contradiction|]. unfold Sql.next_rowid.
  destruct (fold_max_ge (map id db) (id v)) as [H1 H2].
  intros [<-|Hu]; [lia|].
  specialize (H2 (id u) (in_map id _ _ Hu)). lia.
Qed.

Lemma get_Some (db : Sql.Table) (pk : Z) (u : User) :
  Sql.get db pk = Some u -> In u db /\ id u = pk.
Proof.
  unfold Sql.get. intros H. apply find_some in H as [H1 H2].
  apply Z.eqb_eq in H2. auto.
Qed.

Lemma get_None (db : Sql.Table) (pk : Z) :
  Sql.get db pk = None <-> forall u, In u db -> id u <> pk.
Proof.
  unfold Sql.get. split.
  - intros H u Hu E. apply (find_none _ _ H) in Hu. apply Z.eqb_neq in Hu. auto.
  - induction db as [|v db IH]; simpl; [reflexivity|]. intros H.
    destruct (Z.eqb_spec (id v) pk) as [E|_].
    + exfalso. apply (H v); auto.
    + apply IH. intros u Hu. apply H. auto.
Qed.

Lemma first_by_email_Some (db : Sql.Table) (e : string) (u : User) :
  Sql.first_by_email db e = Some u -> In u db /\ email u = e.
Proof.
  unfold Sql.first_by_email. intros H. apply find_some in H as [H1 H2].
  apply String.eqb_eq in H2. auto.
Qed.

Lemma first_by_email_None (db : Sql.Table) (e : string) :
  Sql.first_by_email db e = None <-> forall u, In u db -> email u <> e.
Proof.
  unfold Sql.first_by_email. split.
  - intros H u Hu E. apply (find_none _ _ H) in Hu.
    apply String.eqb_neq in Hu. auto.
  - induction db as [|v db IH]; simpl; [reflexivity|]. intros H.
    destruct (String.eqb_spec (email v) e) as [E|_].
    + exfalso. apply (H v); auto.
    + apply IH. intros u Hu. apply H. auto.
Qed.

(** The [UNIQUE] constraint refuses an insertion exactly when the pre-check
    of [add_user] finds an owner of the e-mail. *)
Lemma insert_refused (db : Sql.Table) (now : Z) (fn ln em : string) (a : Z)
    (ci : string) :
  (Sql.first_by_email db em <> None ->
   Sql.insert db now fn ln em a ci = Sql.Raised Sql.unique_failed)
  /\ (Sql.first_by_email db em = None ->
      Sql.insert db now fn ln em a ci =
        Sql.Committed (db ++ [mkUser (Sql.next_rowid db) fn ln em a ci now])%list).
Proof.
  unfold Sql.insert, Sql.first_by_email.
  destruct (existsb (fun u => (email u =? em)%string) db) eqn:X.
  - split; [reflexivity|]. intros N. apply existsb_exists in X as (u & Hu & E).
    apply (find_none _ _ N) in Hu. congruence.
  - split; [|reflexivity]. intros N.
    destruct (find (fun u => (email u =? em)%string) db) as [u|] eqn:F;
      [|congruence].
    apply find_some in F as [Hu E].
    assert (existsb (fun u => (email u =? em)%string) db = true)
      by (apply existsb_exists; eauto).
    congruence.
Qed.

Lemma get_app_new (db : Sql.Table) (v : User) :
  (forall u, In u db -> id u <> id v) ->
  Sql.get (db ++ [v])%list (id v) = Some v.
Proof.
  unfold Sql.get. induction db as [|w db IH]; simpl; intros H.
  - rewrite Z.eqb_refl. reflexivity.
  - destruct (Z.eqb_spec (id w) (id v)) as [E|_].
    + exfalso. apply (H w); auto.
    + apply IH. intros u Hu. apply H. auto.
Qed.

(* ------------------------------------------------------------------ *)
(** ** Create and Read *)
(* ------------------------------------------------------------------ *)

(** C1. A field set that passes every validation check and whose e-mail no
    record owns is created: the table gains one record, reading its
    identifier returns it, its five fields are the trimmed strings and the
    parsed age of the input, its identifier was in use by no record before
    (reading it found nothing), and its creation time is the time of the
    insertion. *)
Theorem create_then_read (form : MultiDict) (now : Z) (db : Sql.Table)
    (n : Normalized) :
  validate (candidate form) = inr n ->
  (forall u, In u db -> email u <> Py.strip (get form "email" "")) ->
  exists user,
    add_user POST form now db
      = ((db ++ [user])%list, respond [added] (redirect "index"))
    /\ view_user (id user) (db ++ [user])%list
       = respond [] (render_template "view.html" (with_user user))
    /\ first_name user = Py.strip (get form "first_name" "")
    /\ last_name user = Py.strip (get form "last_name" "")
    /\ email user = Py.strip (get form "email" "")
    /\ Py.int (Py.strip (get form "age" "")) = Some (age user)
    /\ city user = Py.strip (get form "city" "")
    /\ id user = Sql.next_rowid db
    /\ (forall u, In u db -> id u <> id user)
    /\ view_user (id user) db = no_such_user (id user)
    /\ created_at user = now.
Proof.
  intros V Fresh.
  destruct (validate_accepted _ _ V) as (Hf & Hl & He & Ha & Hc & _ & _).
  cbn [candidate c_first_name c_last_name c_email c_age c_city] in *.
  rewrite <- He in Fresh. apply first_by_email_None in Fresh.
  exists (mkUser (Sql.next_rowid db) (n_first_name n) (n_last_name n)
                 (n_email n) (n_age n) (n_city n) now).
  assert (New : forall u, In u db -> id u <> Sql.next_rowid db).
  { intros u Hu. apply next_rowid_above in Hu. lia. }
  cbn [id first_name last_name email age city created_at].
  repeat split; auto.
  - rewrite add_user_post, V. unfold create. rewrite Fresh.
    rewrite (proj2 (insert_refused db now _ _ _ _ _) Fresh). reflexivity.
  - unfold view_user.
    rewrite (get_app_new db (mkUser (Sql.next_rowid db) _ _ _ _ _ now) New).
    reflexivity.
  - unfold view_user.
    rewrite (proj2 (get_None db (Sql.next_rowid db)) New). reflexivity.
Qed.

Lemma create_then_read_witness :
  let form := [("first_name", " John"); ("last_name", "Doe ");
               ("email", "john@x.com"); ("age", "30"); ("city", "NYC")] in
  let db := [mkUser 1 "Jane" "Roe" "jane@x.com" 25 "LA" 10] in
  validate (candidate form) = inr (mkNormalized "John" "Doe" "john@x.com" 30 "NYC")
  /\ (forall u, In u db -> email u <> Py.strip (get form "email" ""))
  /\ exists user,
       add_user POST form 20 db
         = ((db ++ [user])%list, respond [added] (redirect "index"))
       /\ view_user (id user) (db ++ [user])%list
          = respond [] (render_template "view.html" (with_user user))
       /\ first_name user = Py.strip (get form "first_name" "")
       /\ last_name user = Py.strip (get form "last_name" "")
       /\ email user = Py.strip (get form "email" "")
       /\ Py.int (Py.strip (get form "age" "")) = Some (age user)
       /\ city user = Py.strip (get form "city" "")
       /\ id user = Sql.next_rowid db
       /\ (forall u, In u db -> id u <> id user)
       /\ view_user (id user) db = no_such_user (id user)
       /\ created_at user = 20%Z.
Proof.
  intros form db.
  assert (F : forall u, In u db -> email u <> Py.strip (get form "email" "")).
  { intros u [<-|[]]. vm_compute. discriminate. }
  split; [reflexivity|]. split; [exact F|].
  exact (create_then_read form 20 db _ eq_refl F).
Defined.

(** The scenario of the specification, run on the handlers. *)
Example create_scenario :
  add_user POST [("first_name", "John"); ("last_name", "Doe");
                 ("email", "john@x.com"); ("age", "30"); ("city", "NYC")] 7 []
  = ([mkUser 1 "John" "Doe" "john@x.com" 30 "NYC" 7],
     respond [added] (redirect "index")).
Proof. reflexivity. Qed.

(** C2, as stated, fails on a field set that does not pass validation: the
    e-mail is owned by a record, yet the rejection names the first name. *)
Lemma duplicate_email_create_counterexample :
  let db := [mkUser 1 "John" "Doe" "john@x.com" 30 "NYC" 7] in
  let form := [("first_name", "J"); ("last_name", "Doe");
               ("email", " john@x.com "); ("age", "30"); ("city", "NYC")] in
  (exists u, In u db /\ email u = Py.strip (get form "email" ""))
  /\ add_user POST form 8 db
     = add_rejected db ("First name must be between 2 and 50 characters!", "error")
  /\ add_user POST form 8 db <> add_rejected db duplicate_email.
Proof.
  intros db form. split; [|split].
  - eexists; split; [left; reflexivity|reflexivity].
  - reflexivity.
  - vm_compute. discriminate.
Qed.

(** C2, amended. When a record owns the trimmed e-mail of the submitted field
    set, Create never changes the table, whatever the other fields are; if the
    field set passes validation, Create fails with the duplicate-email error;
    and the table itself would refuse the insertion with its uniqueness
    constraint. *)
Theorem duplicate_email_create (form : MultiDict) (now : Z) (db : Sql.Table)
    (owner : User) :
  In owner db ->
  email owner = Py.strip (get form "email" "") ->
  fst (add_user POST form now db) = db
  /\ (forall n, validate (candidate form) = inr n ->
        add_user POST form now db = add_rejected db duplicate_email)
  /\ (forall fn ln a ci,
        Sql.insert db now fn ln (email owner) a ci
        = Sql.Raised Sql.unique_failed).
Proof.
  intros Hin He.
  assert (Found : Sql.first_by_email db (email owner) <> None).
  { intros N. exact (proj1 (first_by_email_None _ _) N owner Hin eq_refl). }
  assert (Dup : forall n, validate (candidate form) = inr n ->
                 add_user POST form now db = add_rejected db duplicate_email).
  { intros n V. rewrite add_user_post, V. unfold create.
    destruct (validate_accepted _ _ V) as (_ & _ & E & _).
    cbn [candidate c_email] in E.
    rewrite E, <- He.
    destruct (Sql.first_by_email db (email owner)); [reflexivity|congruence]. }
  split; [|split].
  - destruct (validate (candidate form)) as [r|n] eqn:V.
    + rewrite add_user_post, V. reflexivity.
    + rewrite (Dup n eq_refl). reflexivity.
  - exact Dup.
  - intros. apply insert_refused. exact Found.
Qed.

Lemma duplicate_email_create_witness :
  let db := [mkUser 1 "John" "Doe" "john@x.com" 30 "NYC" 7] in
  let form := [("first_name", "Johnny"); ("last_name", "Doe");
               ("email", " john@x.com "); ("age", "31"); ("city", "Boston")] in
  let owner := mkUser 1 "John" "Doe" "john@x.com" 30 "NYC" 7 in
  In owner db
  /\ email owner = Py.strip (get form "email" "")
  /\ fst (add_user POST form 8 db) = db
  /\ (forall n, validate (candidate form) = inr n ->
        add_user POST form 8 db = add_rejected db duplicate_email)
  /\ (forall fn ln a ci,
        Sql.insert db 8 fn ln (email owner) a ci
        = Sql.Raised Sql.unique_failed).
Proof.
  intros db form owner.
  split; [left; reflexivity|]. split; [reflexivity|].
  exact (duplicate_email_create form 8 db owner (or_introl eq_refl) eq_refl).
Defined.

Example duplicate_email_scenario :
  add_user POST [("first_name", "Johnny"); ("last_name", "Doe");
                 ("email", " john@x.com "); ("age", "31"); ("city", "Boston")]
           8 [mkUser 1 "John" "Doe" "john@x.com" 30 "NYC" 7]
  = add_rejected [mkUser 1 "John" "Doe" "john@x.com" 30 "NYC" 7] duplicate_email.
Proof. reflexivity. Qed.

(* ------------------------------------------------------------------ *)
(** ** Search *)
(* ------------------------------------------------------------------ *)

Lemma lower_char_idem (c : ascii) :
  Sql.lower_char (Sql.lower_char c) = Sql.lower_char c.
Proof. each_char c. Qed.

Lemma lower_char_percent (c : ascii) :
  (Sql.lower_char c =? "%")%char = (c =? "%")%char.
Proof. each_char c. Qed.

Lemma lower_char_underscore (c : ascii) :
  (Sql.lower_char c =? "_")%char = (c =? "_")%char.
Proof. each_char c. Qed.

Lemma like_percent_unfold (p text : string) :
  Sql.pattern_compare (String "%" p) text =
    Sql.pattern_compare p text
    || match text with
       | EmptyString => false
       | String _ text' => Sql.pattern_compare (String "%" p) text'
       end.
Proof. destruct text; reflexivity. Qed.

Lemma like_char_unfold (a : ascii) (p text : string) :
  (a =? "%")%char = false ->
  Sql.pattern_compare (String a p) text =
    match text with
    | EmptyString => false
    | String t text' =>
        ((a =? "_")%char || (Sql.lower_char a =? Sql.lower_char t)%char)
        && Sql.pattern_compare p text'
    end.
Proof. intros H. cbn [Sql.pattern_compare]. rewrite H. reflexivity. Qed.

(** [LIKE] after [lower()] on both sides is [LIKE]. *)
Lemma like_lower (p text : string) :
  Sql.pattern_compare (Sql.lower p) (Sql.lower text) = Sql.pattern_compare p text.
Proof.
  revert text. induction p as [|a p IH]; intros text.
  - destruct text; reflexivity.
  - cbn [Sql.lower]. destruct (Ascii.eqb_spec a "%") as [->|Ha].
    + change (Sql.lower_char "%") with "%"%char.
      induction text as [|t text IHt].
      * rewrite (like_percent_unfold (Sql.lower p) (Sql.lower "")),
          (like_percent_unfold p ""). rewrite IH. reflexivity.
      * cbn [Sql.lower].
        rewrite (like_percent_unfold (Sql.lower p)), (like_percent_unfold p).
        rewrite IHt. change (String (Sql.lower_char t) (Sql.lower text))
          with (Sql.lower (String t text)). rewrite IH. reflexivity.
    + apply Ascii.eqb_neq in Ha.
      rewrite !like_char_unfold by (rewrite ?lower_char_percent; exact Ha).
      destruct text as [|t text]; [reflexivity|]. cbn [Sql.lower].
      rewrite lower_char_underscore, !lower_char_idem, IH. reflexivity.
Qed.

Lemma ord_lower_char (c : ascii) :
  (Py.ord (Sql.lower_char c) =? 0)%N = (Py.ord c =? 0)%N
  /\ (Py.ord (Sql.lower_char c) <? 128)%N = (Py.ord c <? 128)%N.
Proof. split; each_char c. Qed.

Lemma c_str_lower (s : string) :
  Sql.c_str (Sql.lower s) = Sql.lower (Sql.c_str s).
Proof.
  induction s as [|c s IH]; [reflexivity|]. cbn [Sql.lower Sql.c_str].
  rewrite (proj1 (ord_lower_char c)). destruct (Py.ord c =? 0)%N; [reflexivity|].
  cbn [Sql.lower]. rewrite IH. reflexivity.
Qed.

Lemma utf8_bytes_lower (s : string) :
  Sql.utf8_bytes (Sql.lower s) = Sql.utf8_bytes s.
Proof.
  induction s as [|c s IH]; [reflexivity|]. cbn [Sql.lower Sql.utf8_bytes].
  rewrite (proj2 (ord_lower_char c)), IH. reflexivity.
Qed.

Lemma c_str_plain (s : string) : occurs NUL s = false -> Sql.c_str s = s.
Proof.
  induction s as [|c s IH]; [reflexivity|]. cbn [occurs Sql.c_str].
  intros [Hc Hs]%orb_false_iff. rewrite (IH Hs).
  destruct (N.eqb_spec (Py.ord c) 0) as [E|_]; [|reflexivity].
  exfalso. revert Hc E. unfold NUL. each_char c.
Qed.

(** [ilike], evaluated: the error of an over-long pattern, or else the
    comparison of pattern and column as far as their first NUL. *)
Lemma ilike_eval (column pattern : string) :
  Sql.ilike column pattern =
    if (Sql.max_like_pattern_length <? Sql.utf8_bytes pattern)%N
    then inr Sql.pattern_too_complex
    else inl (Sql.pattern_compare (Sql.c_str pattern) (Sql.c_str column)).
Proof.
  unfold Sql.ilike, Sql.like. rewrite utf8_bytes_lower.
  destruct (_ <? _)%N; [reflexivity|].
  rewrite !c_str_lower, like_lower. reflexivity.
Qed.

Lemma select_filter (clause : User -> bool + string) (f : User -> bool)
    (db : Sql.Table) :
  (forall u, clause u = inl (f u)) -> Sql.select clause db = inl (filter f db).
Proof.
  intros H. induction db as [|u db IH]; [reflexivity|].
  cbn [Sql.select filter]. rewrite H, IH. reflexivity.
Qed.

Lemma select_ext (c1 c2 : User -> bool + string) (db : Sql.Table) :
  (forall u, c1 u = c2 u) -> Sql.select c1 db = Sql.select c2 db.
Proof.
  intros H. induction db as [|u db IH]; [reflexivity|].
  cbn [Sql.select]. rewrite H, IH. reflexivity.
Qed.

(** The handler on a query that is not blank: an unhandled error when the
    pattern is too long and the table has a row, else the rows that match. *)
Lemma search_eval (args : MultiDict) (db : Sql.Table) :
  let q := Py.strip (get args "query" "") in
  q <> "" ->
  (within_limit q ->
   search_users args db
   = respond [] (render_template "search.html"
                   (with_search (filter (matches ("%" ++ q ++ "%")) db) q)))
  /\ (~ within_limit q -> db <> [] ->
      search_users args db = respond [] (unhandled "OperationalError")).
Proof.
  intros q Q. unfold search_users. fold q.
  destruct (Py.truthy q) eqn:T; [|apply truthy_false in T; contradiction].
  unfold within_limit. split.
  - intros L. apply N.ltb_ge in L.
    rewrite (select_filter _ (matches ("%" ++ q ++ "%"))); [reflexivity|].
    intros u. rewrite !ilike_eval, L. unfold matches. cbn [Sql.or_].
    destruct (Sql.pattern_compare _ (Sql.c_str (first_name u))); [reflexivity|].
    destruct (Sql.pattern_compare _ (Sql.c_str (last_name u))); [reflexivity|].
    destruct (Sql.pattern_compare _ (Sql.c_str (city u))); reflexivity.
  - intros L N. destruct db as [|u db]; [contradiction|].
    cbn [Sql.select Sql.or_]. rewrite !ilike_eval.
    destruct (N.ltb_spec Sql.max_like_pattern_length
                (Sql.utf8_bytes ("%" ++ q ++ "%"))); [reflexivity|contradiction].
Qed.

Lemma like_percent (p text : string) :
  Sql.pattern_compare (String "%" p) text = true <->
  exists run rest, text = run ++ rest /\ Sql.pattern_compare p rest = true.
Proof.
  induction text as [|t text IH]; rewrite like_percent_unfold.
  - rewrite orb_false_r. split.
    + intros H. exists "", "". auto.
    + intros (run & rest & E & H). destruct run; [|discriminate].
      simpl in E. subst rest. exact H.
  - rewrite orb_true_iff, IH. split.
    + intros [H|(run & rest & -> & H)].
      * exists "", (String t text). auto.
      * exists (String t run), rest. auto.
    + intros (run & rest & E & H). destruct run as [|c run]; simpl in E.
      * subst rest. auto.
      * injection E as -> ->. right. eauto.
Qed.

(** The matcher decides the relation [Like]. *)
Lemma like_Like (p text : string) : Sql.pattern_compare p text = true <-> Like p text.
Proof.
  split.
  - revert text. induction p as [|a p IH]; intros text.
    + destruct text; [constructor|discriminate].
    + destruct (Ascii.eqb_spec a "%") as [->|Ha].
      * intros (run & rest & -> & H)%like_percent. constructor. auto.
      * rewrite like_char_unfold by (apply Ascii.eqb_neq; exact Ha).
        destruct text as [|t text]; [discriminate|].
        intros [H1 H2]%andb_true_iff. apply IH in H2.
        destruct (Ascii.eqb_spec a "_") as [->|Hu].
        -- constructor. exact H2.
        -- simpl in H1. apply Ascii.eqb_eq in H1. constructor; auto.
  - induction 1 as [|p run text _ IH|p c text _ IH|a p c text Ha Hu E _ IH].
    + reflexivity.
    + apply like_percent. eauto.
    + rewrite like_char_unfold by reflexivity. exact IH.
    + rewrite like_char_unfold by (apply Ascii.eqb_neq; exact Ha).
      rewrite IH, E, Ascii.eqb_refl, orb_true_r. reflexivity.
Qed.

Lemma like_only_percent (text : string) : Sql.pattern_compare "%" text = true.
Proof. apply like_percent. exists text, "". split; [|reflexivity].
  clear. induction text; simpl; congruence. Qed.

(** A pattern without pattern characters, followed by [%], matches the texts
    that begin with it. *)
Lemma like_literal (q text : string) :
  wildcard_free q = true ->
  Sql.pattern_compare (q ++ "%") text = starts_with_ci q text.
Proof.
  revert text. induction q as [|a q IH]; intros text W.
  - simpl append. rewrite like_only_percent. reflexivity.
  - simpl in W. apply andb_true_iff in W as [W Wq].
    apply andb_true_iff in W as [Wp Wu].
    apply negb_true_iff in Wp, Wu. simpl append.
    rewrite like_char_unfold by exact Wp. rewrite Wu.
    destruct text as [|t text]; [reflexivity|].
    simpl. rewrite IH by exact Wq. reflexivity.
Qed.

Lemma contains_ci_split (s q : string) :
  contains_ci s q = true <->
  exists run rest, s = run ++ rest /\ starts_with_ci q rest = true.
Proof.
  induction s as [|c s IH]; cbn [contains_ci].
  - rewrite orb_false_r. split.
    + intros H. exists "", "". auto.
    + intros (run & rest & E & H). destruct run; [|discriminate].
      simpl in E. subst rest. exact H.
  - rewrite orb_true_iff, IH. split.
    + intros [H|(run & rest & -> & H)].
      * exists "", (String c s). auto.
      * exists (String c run), rest. auto.
    + intros (run & rest & E & H). destruct run as [|d run]; simpl in E.
      * subst rest. auto.
      * injection E as -> ->. right. eauto.
Qed.

(** For a query without pattern characters, the comparison against
    [%query%] is containment up to ASCII case. *)
Lemma compare_contains (column q : string) :
  wildcard_free q = true ->
  Sql.pattern_compare ("%" ++ q ++ "%") column = contains_ci column q.
Proof.
  intros W. apply eq_true_iff_eq.
  change ("%" ++ q ++ "%") with (String "%" (q ++ "%")).
  rewrite like_percent, contains_ci_split.
  split; intros (run & rest & E & H); exists run, rest; split; auto.
  - rewrite <- like_literal; auto.
  - rewrite like_literal; auto.
Qed.

Lemma starts_with_ci_spec (q s : string) :
  starts_with_ci q s = true <->
  exists mid post, s = mid ++ post /\ Sql.lower mid = Sql.lower q.
Proof.
  revert s. induction q as [|a q IH]; intros s.
  - split; [intros _; exists "", s; auto|reflexivity].
  - destruct s as [|b s]; simpl.
    + split; [discriminate|].
      intros (mid & post & E & L). destruct mid; discriminate.
    + rewrite andb_true_iff, IH. split.
      * intros [C (mid & post & -> & L)]. apply Ascii.eqb_eq in C.
        exists (String b mid), post. simpl. rewrite L, C. auto.
      * intros (mid & post & E & L). destruct mid as [|m mid]; [discriminate|].
        simpl in E, L. injection E as -> ->. injection L as L1 L2.
        split; [apply Ascii.eqb_eq; auto|eauto].
Qed.

(** [contains_ci s q] holds exactly when [s] has an occurrence of [q] up to
    ASCII case. *)
Lemma contains_ci_spec (s q : string) :
  contains_ci s q = true <->
  exists pre mid post, s = pre ++ mid ++ post /\ Sql.lower mid = Sql.lower q.
Proof.
  rewrite contains_ci_split. split.
  - intros (run & rest & -> & (mid & post & -> & L)%starts_with_ci_spec). eauto.
  - intros (pre & mid & post & -> & L). exists pre, (mid ++ post).
    split; [reflexivity|]. apply starts_with_ci_spec. eauto.
Qed.

Lemma matches_plain (q : string) (u : User) :
  plain q = true -> searchable u ->
  matches ("%" ++ q ++ "%") u
  = contains_ci (first_name u) q || contains_ci (last_name u) q
    || contains_ci (city u) q.
Proof.
  intros [W N]%andb_true_iff (Hf & Hl & Hc). apply negb_true_iff in N.
  unfold matches. rewrite (c_str_plain (first_name u) Hf),
    (c_str_plain (last_name u) Hl), (c_str_plain (city u) Hc).
  rewrite (c_str_plain ("%" ++ q ++ "%")).
  - rewrite !compare_contains by exact W. reflexivity.
  - simpl. clear -N. induction q as [|c q IH]; [reflexivity|].
    simpl in *. apply orb_false_iff in N as [Nc Nq].
    rewrite Nc. exact (IH Nq).
Qed.

(** A query holding a pattern character is not searched for as it stands:
    no field of the record contains an underscore, yet the search for it
    returns the record. *)
Example search_wildcard_query :
  let john := mkUser 1 "John" "Doe" "john@x.com" 30 "NYC" 7 in
  let query := "_" in
  contains_ci (first_name john) query = false
  /\ contains_ci (last_name john) query = false
  /\ contains_ci (city john) query = false
  /\ search_users [("query", query)] [john]
     = respond [] (render_template "search.html" (with_search [john] query)).
Proof. repeat split. Qed.

(** A query that makes the pattern longer than the limit of [LIKE] fails
    as soon as the table has a row, and a field is searched only up to its
    first NUL. *)
Example search_long_query :
  let john := mkUser 1 "John" "Doe" "john@x.com" 30 "NYC" 7 in
  let query := String.concat "" (repeat "a" (N.to_nat 49999)) in
  match body (search_users [("query", query)] []) with
  | render_template "search.html" (with_search users _) => users = []
  | _ => False
  end
  /\ search_users [("query", query)] [john]
     = respond [] (unhandled "OperationalError").
Proof. split; vm_compute; reflexivity. Qed.

Example search_past_nul :
  let john := mkUser 1 (String "J" (String "o" (String NUL "hn"))) "Doe"
                     "john@x.com" 30 "NYC" 7 in
  search_users [("query", "hn")] [john]
  = respond [] (render_template "search.html" (with_search [] "hn")).
Proof. reflexivity. Qed.

(** C3, as stated, fails on a query of white space: the query is not
    empty and the city of the record contains it, yet nothing is returned,
    because the handler trims the query before it looks at it. *)
Lemma search_blank_counterexample :
  let john := mkUser 1 "John" "Doe" "john@x.com" 30 "New York" 7 in
  let query := " " in
  query <> ""
  /\ contains_ci (city john) query = true
  /\ search_users [("query", query)] [john]
     = respond [] (render_template "search.html" (with_search [] "")).
Proof.
  intros john query. repeat split; try reflexivity. discriminate.
Qed.

(** C3, amended. Let [q] be the query trimmed of surrounding white space.
    If [q] is empty the result is empty (not all records).  If [q] is not
    empty, holds neither [%] nor [_] nor NUL and gives a pattern within the
    length limit of [LIKE], and the searched fields of the stored records hold
    no NUL, the result holds exactly the records, in table order, one of whose
    first name, last name or city contains [q] as a substring up to ASCII case;
    it is empty when no record does. *)
Theorem search_by_substring (args : MultiDict) (db : Sql.Table) :
  let q := Py.strip (get args "query" "") in
  let contains u :=
    contains_ci (first_name u) q || contains_ci (last_name u) q
    || contains_ci (city u) q in
  (q = "" ->
   search_users args db
   = respond [] (render_template "search.html" (with_search [] q)))
  /\ (q <> "" -> plain q = true -> within_limit q -> Forall searchable db ->
      exists users,
        search_users args db
        = respond [] (render_template "search.html" (with_search users q))
        /\ users = filter contains db
        /\ (forall u, In u users <->
                      In u db
                      /\ (contains_ci (first_name u) q = true
                          \/ contains_ci (last_name u) q = true
                          \/ contains_ci (city u) q = true))
        /\ ((forall u, In u db -> contains u = false) -> users = [])).
Proof.
  intros q contains. split.
  - intros E. unfold search_users. fold q. rewrite E. reflexivity.
  - intros Q P L S. exists (filter contains db).
    assert (F : filter (matches ("%" ++ q ++ "%")) db = filter contains db).
    { clear -P S. induction S as [|u db Hu _ IH]; [reflexivity|].
      cbn [filter]. rewrite (matches_plain q u P Hu), IH. reflexivity. }
    split; [|split; [reflexivity|split]].
    + rewrite (proj1 (search_eval args db Q) L). fold q. rewrite F. reflexivity.
    + intros u. unfold contains. rewrite filter_In, !orb_true_iff. tauto.
    + intros None. clear -None.
      induction db as [|v db IH]; [reflexivity|]. cbn [filter].
      rewrite (None v (or_introl eq_refl)). apply IH.
      intros u Hu. apply None. right. exact Hu.
Qed.

Lemma search_by_substring_witness :
  let args := [("query", " york ")] in
  let john := mkUser 1 "John" "Doe" "john@x.com" 30 "New York" 7 in
  let jane := mkUser 2 "Jane" "Roe" "jane@x.com" 25 "LA" 9 in
  let q := Py.strip (get args "query" "") in
  q <> "" /\ plain q = true /\ within_limit q
  /\ Forall searchable [john; jane]
  /\ search_users args [john; jane]
     = respond [] (render_template "search.html" (with_search [john] "york"))
  /\ exists users,
       search_users args [john; jane]
       = respond [] (render_template "search.html" (with_search users q))
       /\ users = filter (fun u => contains_ci (first_name u) q
                                   || contains_ci (last_name u) q
                                   || contains_ci (city u) q) [john; jane].
Proof.
  intros args john jane q.
  assert (Q : q <> "") by (vm_compute; discriminate).
  assert (L : within_limit q) by (vm_compute; discriminate).
  assert (S : Forall searchable [john; jane]).
  { repeat constructor. }
  split; [exact Q|]. split; [reflexivity|]. split; [exact L|].
  split; [exact S|]. split; [reflexivity|].
  destruct (proj2 (search_by_substring args [john; jane]) Q eq_refl L S)
    as (users & E & F & _).
  exists users. split; [exact E|exact F].
Defined.

(* ------------------------------------------------------------------ *)
(** ** The age check *)
(* ------------------------------------------------------------------ *)

Example parse_age_examples :
  map parse_age ["abc"; "0"; "151"; "-5"; "1"; "150"]
  = [inr (message invalid_age_format); inr (message age_out_of_range);
     inr (message age_out_of_range); inr (message age_out_of_range);
     inl 1%Z; inl 150%Z].
Proof. reflexivity. Qed.

(** Once presence and the two name lengths are in order, the validator is
    decided by the age block and the city check. *)
Lemma validate_from_age (c : Candidate) :
  first_failure [check_presence; check_first_name; check_last_name] (trim c)
    = None ->
  validate c =
    match parse_age (c_age (trim c)) with
    | inr _ =>
        match Py.int (c_age (trim c)) with
        | None => inl invalid_age_format
        | Some _ => inl age_out_of_range
        end
    | inl n =>
        if length_in 2 50 (c_city (trim c))
        then inr (mkNormalized (c_first_name (trim c)) (c_last_name (trim c))
                               (c_email (trim c)) n (c_city (trim c)))
        else inl city_length
    end.
Proof.
  intros H. unfold validate.
  change checks with ([check_presence; check_first_name; check_last_name]
                      ++ [check_age_format; check_age_range; check_city])%list.
  rewrite first_failure_app, H.
  unfold first_failure, check_age_format, check_age_range, check_city, parse_age.
  destruct (Py.int (c_age (trim c))) as [n|]; [|reflexivity].
  rewrite age_outside.
  destruct ((1 <=? n)%Z && (n <=? 150)%Z); cbn [negb]; [|reflexivity].
  destruct (length_in 2 50 (c_city (trim c))); reflexivity.
Qed.

(** C5. The age block, on every string: a string [int] does not parse is
    rejected with the invalid-format message; one that parses to an integer
    outside 1..150 is rejected with the range message; one that parses to an
    integer within 1..150 is accepted with that value, in particular the
    boundary values 1 and 150.  In [add_user], whenever the checks that come
    before (presence, name lengths) pass, the rejection of the age block is
    the response, with the table unchanged, and after its acceptance the
    validator can only object to the city. *)
Theorem age_check (s : string) :
  (Py.int s = None -> parse_age s = inr (message invalid_age_format))
  /\ (forall n, Py.int s = Some n -> (n < 1 \/ 150 < n)%Z ->
        parse_age s = inr (message age_out_of_range))
  /\ (forall n, Py.int s = Some n -> (1 <= n <= 150)%Z -> parse_age s = inl n)
  /\ parse_age "1" = inl 1%Z
  /\ parse_age "150" = inl 150%Z
  /\ (forall form now db,
        Py.strip (get form "age" "") = s ->
        first_failure [check_presence; check_first_name; check_last_name]
                      (trim (candidate form)) = None ->
        match parse_age s with
        | inr rejection =>
            add_user POST form now db = add_rejected db (rejection, "error")
        | inl n =>
            forall reason, validate (candidate form) = inl reason ->
                           reason = city_length
        end).
Proof.
  unfold parse_age at 1 2 3.
  split; [intros ->; reflexivity|].
  split; [intros n -> H|].
  { rewrite age_outside.
    destruct (Z.leb_spec 1 n), (Z.leb_spec n 150); simpl; try reflexivity; lia. }
  split; [intros n -> H|].
  { rewrite age_outside.
    destruct (Z.leb_spec 1 n), (Z.leb_spec n 150); simpl; try reflexivity; lia. }
  split; [reflexivity|]. split; [reflexivity|].
  intros form now db <- H.
  pose proof (validate_from_age (candidate form) H) as V.
  cbn [trim candidate c_age] in V.
  destruct (parse_age (Py.strip (get form "age" ""))) as [n|rejection] eqn:P.
  - intros reason R. rewrite R in V.
    destruct (length_in 2 50 _); congruence.
  - rewrite add_user_post, V. unfold parse_age in P.
    destruct (Py.int (Py.strip (get form "age" ""))) as [n|].
    + destruct ((n <=? 0)%Z || (150 <? n)%Z); [|discriminate].
      injection P as <-. reflexivity.
    + injection P as <-. reflexivity.
Qed.

Lemma age_check_witness :
  let form := [("first_name", "John"); ("last_name", "Doe");
               ("email", "john@x.com"); ("age", " 151 "); ("city", "NYC")] in
  Py.int "151" = Some 151%Z
  /\ (151 < 1 \/ 150 < 151)%Z
  /\ Py.strip (get form "age" "") = "151"
  /\ first_failure [check_presence; check_first_name; check_last_name]
                   (trim (candidate form)) = None
  /\ parse_age "151" = inr (message age_out_of_range)
  /\ add_user POST form 7 [] = add_rejected [] (message age_out_of_range, "error").
Proof.
  intros form.
  split; [reflexivity|]. split; [right; lia|].
  split; [reflexivity|]. split; [reflexivity|].
  destruct (age_check "151") as (_ & Range & _ & _ & _ & Handler).
  split.
  - exact (Range 151%Z eq_refl (or_intror eq_refl)).
  - exact (Handler form 7%Z [] eq_refl eq_refl).
Defined.

(* ------------------------------------------------------------------ *)
(** ** Delete *)
(* ------------------------------------------------------------------ *)

Lemma get_filter_other (db : Sql.Table) (gone pk : Z) :
  pk <> gone ->
  Sql.get (filter (fun u => negb (id u =? gone)%Z) db) pk = Sql.get db pk.
Proof.
  intros N. unfold Sql.get. induction db as [|v db IH]; simpl; [reflexivity|].
  destruct (Z.eqb_spec (id v) gone) as [E|E]; simpl.
  - destruct (Z.eqb_spec (id v) pk); [congruence|exact IH].
  - destruct (Z.eqb_spec (id v) pk); [reflexivity|exact IH].
Qed.

(** Deleting an existing record confirms with its display name and removes
    it: reading its identifier afterwards is answered as an identifier no
    row bears, the record is no longer in the table, and every other record
    is still there and still read under its identifier.  Deleting an
    identifier that no row bears is answered likewise and leaves the table as
    it was.  That answer is the 404 abort for an identifier within the 64-bit
    integers. *)
Lemma delete_then_read (db : Sql.Table) (user_id : Z) :
  (forall user, Sql.get db user_id = Some user ->
     exists db',
       delete_user user_id db
         = (db', respond [("User " ++ first_name user ++ " " ++ last_name user
                             ++ " deleted successfully!", "success")]
                         (redirect "index"))
       /\ view_user user_id db' = no_such_user user_id
       /\ ~ In user db'
       /\ (forall u, In u db' <-> In u db /\ id u <> user_id)
       /\ (forall pk, pk <> user_id -> view_user pk db' = view_user pk db))
  /\ (Sql.get db user_id = None ->
      delete_user user_id db = (db, no_such_user user_id))
  /\ (Sql.fits user_id = true -> no_such_user user_id = not_found).
Proof.
  split; [|split].
  - intros user G. unfold delete_user. rewrite G. cbn [Sql.delete].
    eexists. split; [reflexivity|].
    assert (M : forall u, In u (filter (fun u => negb (id u =? user_id)%Z) db)
                          <-> In u db /\ id u <> user_id).
    { intros u. rewrite filter_In, negb_true_iff, Z.eqb_neq. tauto. }
    split; [|split; [|split]].
    + unfold view_user.
      rewrite (proj2 (get_None _ user_id)); [reflexivity|].
      intros u Hu. apply M in Hu. tauto.
    + intros Hu. apply M in Hu. apply get_Some in G. tauto.
    + exact M.
    + intros pk N. unfold view_user. rewrite get_filter_other by exact N.
      reflexivity.
  - intros G. unfold delete_user. rewrite G. reflexivity.
  - intros F. unfold no_such_user. rewrite F. reflexivity.
Qed.

Example delete_then_read_scenario :
  let john := mkUser 1 "John" "Doe" "john@x.com" 30 "NYC" 7 in
  let jane := mkUser 2 "Jane" "Roe" "jane@x.com" 25 "LA" 9 in
  delete_user 1 [john; jane]
  = ([jane], respond [("User John Doe deleted successfully!", "success")]
                     (redirect "index"))
  /\ view_user 1 [jane] = not_found
  /\ delete_user 5 [john; jane] = ([john; jane], not_found).
Proof. repeat split. Qed.

(** C10 does not hold of the handlers for every absent identifier.  The
    route takes any run of digits as [user_id]; for one beyond the 64-bit
    integers [get_or_404] does not answer not-found: the driver cannot bind
    the identifier, the [OverflowError] is caught by nothing, and the request
    is answered with status 500.  The table is left as it was. *)
Theorem delete_absent_beyond_integers :
  let john := mkUser 1 "John" "Doe" "john@x.com" 30 "NYC" 7 in
  let user_id := 9223372036854775808%Z in
  Sql.get [john] user_id = None
  /\ delete_user user_id [john]
     = ([john], respond [] (unhandled "OverflowError"))
  /\ delete_user user_id [john] <> ([john], not_found)
  /\ view_user user_id [john] = respond [] (unhandled "OverflowError").
Proof.
  intros john user_id. repeat split. vm_compute. discriminate.
Qed.

(* ------------------------------------------------------------------ *)
(** ** The length of the e-mail *)
(* ------------------------------------------------------------------ *)

(** C9 does not hold of the handlers: the column is declared [String(120)],
    but neither handler checks the length of the e-mail, and a field set
    with an e-mail of 121 characters is accepted and stored, by [add_user] and
    by [update_user] alike. *)
Theorem email_longer_than_declared :
  let john := mkUser 1 "John" "Doe" "john@x.com" 30 "NYC" 7 in
  let form := [("first_name", "John"); ("last_name", "Doe");
               ("email", long_email); ("age", "30"); ("city", "NYC")] in
  String.length long_email = 121
  /\ add_user POST form 7 []
     = ([mkUser 1 "John" "Doe" long_email 30 "NYC" 7],
        respond [added] (redirect "index"))
  /\ update_user 1 POST form [john]
     = ([mkUser 1 "John" "Doe" long_email 30 "NYC" 7],
        respond [updated] (redirect "index")).
Proof. repeat split. Qed.

(** The lower bound does hold: a record that either handler stores has an
    e-mail of at least one character. *)
Lemma stored_email_nonempty (form : MultiDict) (now : Z) (db : Sql.Table)
    (user_id : Z) (u : User) :
  (In u (fst (add_user POST form now db)) -> In u db \/ 1 <= String.length (email u))
  /\ (In u (fst (update_user user_id POST form db)) ->
      In u db \/ 1 <= String.length (email u)).
Proof.
  assert (L : forall n, validate (candidate form) = inr n ->
                        1 <= String.length (n_email n)).
  { intros n V. destruct (validate_accepted _ _ V) as (_ & _ & _ & _ & _ & N & _).
    destruct (n_email n); [congruence|simpl; lia]. }
  split.
  - rewrite add_user_post. destruct (validate (candidate form)) as [r|n] eqn:V;
      [left; assumption|].
    unfold create. destruct (Sql.first_by_email db (n_email n));
      [left; assumption|].
    unfold Sql.insert. destruct (existsb _ db); [left; assumption|].
    cbn [fst]. intros [H|[<-|[]]]%in_app_or; [left; exact H|right].
    cbn [email]. exact (L n eq_refl).
  - rewrite update_user_post. destruct (Sql.get db user_id) as [user|];
      [|left; assumption].
    destruct (validate (candidate form)) as [r|n] eqn:V; [left; assumption|].
    unfold change. destruct (match Sql.first_by_email db (n_email n) with
                             | Some other => negb (id other =? user_id)%Z
                             | None => false end); [left; assumption|].
    unfold Sql.update. destruct (existsb _ db); [left; assumption|].
    cbn [fst]. intros (v & E & Hv)%in_map_iff.
    destruct (id v =? user_id)%Z; [right|left; congruence].
    subst u. cbn [email]. exact (L n eq_refl).
Qed.

(* ------------------------------------------------------------------ *)
(** ** Update *)
(* ------------------------------------------------------------------ *)

Lemma NoDup_map_injective {A B : Type} (f : A -> B) (l : list A) (x y : A) :
  NoDup (map f l) -> In x l -> In y l -> f x = f y -> x = y.
Proof.
  induction l as [|a l IH]; simpl; [contradiction|].
  intros N Hx Hy E. inversion N as [|? ? Na Nl]; subst.
  destruct Hx as [->|Hx], Hy as [->|Hy]; auto.
  - exfalso. apply Na. rewrite E. apply in_map. exact Hy.
  - exfalso. apply Na. rewrite <- E. apply in_map. exact Hx.
Qed.

Lemma update_map (db : Sql.Table) (pk : Z) (n : Normalized) :
  (forall u, In u db -> email u = n_email n -> id u = pk) ->
  Sql.update db pk (n_first_name n) (n_last_name n) (n_email n) (n_age n)
             (n_city n)
  = Sql.Committed (map (replaced pk n) db).
Proof.
  intros H. unfold Sql.update.
  destruct (existsb _ db) eqn:X; [|reflexivity].
  apply existsb_exists in X as (u & Hu & [N E]%andb_true_iff).
  apply String.eqb_eq in E. apply negb_true_iff, Z.eqb_neq in N.
  exfalso. apply N. apply H; assumption.
Qed.

Lemma update_refused (db : Sql.Table) (pk : Z) (other : User)
    (fn ln : string) (a : Z) (ci : string) :
  In other db -> id other <> pk ->
  Sql.update db pk fn ln (email other) a ci = Sql.Raised Sql.unique_failed.
Proof.
  intros Hin N. unfold Sql.update.
  destruct (existsb _ db) eqn:X; [reflexivity|].
  assert (existsb (fun u => negb (id u =? pk)%Z && (email u =? email other)%string)
                  db = true); [|congruence].
  apply existsb_exists. exists other. split; [exact Hin|].
  rewrite String.eqb_refl, andb_true_r. apply negb_true_iff, Z.eqb_neq. exact N.
Qed.

Lemma replaced_id (pk : Z) (n : Normalized) (u : User) :
  id (replaced pk n u) = id u.
Proof. unfold replaced. destruct (id u =? pk)%Z; reflexivity. Qed.

Lemma get_replaced_same (db : Sql.Table) (pk : Z) (n : Normalized) (user : User) :
  Sql.get db pk = Some user ->
  Sql.get (map (replaced pk n) db) pk
  = Some (mkUser (id user) (n_first_name n) (n_last_name n) (n_email n)
                 (n_age n) (n_city n) (created_at user)).
Proof.
  unfold Sql.get. induction db as [|v db IH]; cbn [map find]; [discriminate|].
  rewrite replaced_id. destruct (Z.eqb_spec (id v) pk) as [E|E]; [|exact IH].
  intros [= ->]. unfold replaced. rewrite (proj2 (Z.eqb_eq _ _) E). reflexivity.
Qed.

Lemma get_replaced_other (db : Sql.Table) (pk pk' : Z) (n : Normalized) :
  pk' <> pk -> Sql.get (map (replaced pk n) db) pk' = Sql.get db pk'.
Proof.
  intros N. unfold Sql.get. induction db as [|v db IH]; cbn [map find];
    [reflexivity|].
  rewrite replaced_id. destruct (Z.eqb_spec (id v) pk') as [E|E]; [|exact IH].
  unfold replaced. destruct (Z.eqb_spec (id v) pk); [congruence|reflexivity].
Qed.

Lemma replaced_other (pk : Z) (n : Normalized) (db : Sql.Table) (u : User) :
  id u <> pk -> (In u (map (replaced pk n) db) <-> In u db).
Proof.
  intros N. rewrite in_map_iff. split.
  - intros (v & E & Hv). unfold replaced in E.
    destruct (Z.eqb_spec (id v) pk) as [Ev|Ev]; [|congruence].
    subst u. cbn [id] in N. contradiction.
  - intros Hu. exists u. split; [|exact Hu]. unfold replaced.
    rewrite (proj2 (Z.eqb_neq _ _) N). reflexivity.
Qed.

Lemma replaced_keys (pk : Z) (n : Normalized) (db : Sql.Table) :
  map id (map (replaced pk n) db) = map id db
  /\ map created_at (map (replaced pk n) db) = map created_at db.
Proof.
  rewrite !map_map. split; apply map_ext; intros u; unfold replaced;
    destruct (id u =? pk)%Z; reflexivity.
Qed.

(** The flashed validation messages are not the duplicate-email message, nor
    a success message. *)
Lemma message_distinct (r : Reason) :
  (message r, "error") <> duplicate_email /\ (message r, "error") <> updated.
Proof. destruct r; split; discriminate. Qed.

(** C6. In a table that satisfies its constraints, an update of a record that
    submits the record's own e-mail never flashes the duplicate-email error,
    whatever the other fields are; and when the field set passes validation
    the update succeeds: the record is read back with the submitted values,
    its own e-mail, its identifier and its creation time. *)
Theorem update_own_email (db : Sql.Table) (user_id : Z) (user : User)
    (form : MultiDict) :
  consistent db ->
  Sql.get db user_id = Some user ->
  Py.strip (get form "email" "") = email user ->
  ~ In duplicate_email (flashed (snd (update_user user_id POST form db)))
  /\ (forall n, validate (candidate form) = inr n ->
        exists db',
          update_user user_id POST form db
            = (db', respond [updated] (redirect "index"))
          /\ view_user user_id db'
             = respond [] (render_template "view.html"
                 (with_user (mkUser user_id (n_first_name n) (n_last_name n)
                                    (email user) (n_age n) (n_city n)
                                    (created_at user))))).
Proof.
  intros [Ni Ne] G E.
  destruct (get_Some _ _ _ G) as [Hin Hid].
  assert (Own : forall u, In u db -> email u = email user -> id u = user_id).
  { intros u Hu Eu. rewrite (NoDup_map_injective email db u user Ne Hu Hin Eu).
    exact Hid. }
  assert (Ok : forall n, validate (candidate form) = inr n ->
                update_user user_id POST form db
                = (map (replaced user_id n) db,
                   respond [updated] (redirect "index"))
                /\ n_email n = email user).
  { intros n V. destruct (validate_accepted _ _ V) as (_ & _ & En & _).
    cbn [candidate c_email] in En. rewrite E in En.
    rewrite update_user_post, G, V. unfold change.
    rewrite update_map by (rewrite En; exact Own).
    destruct (Sql.first_by_email db (n_email n)) as [other|] eqn:F; [|auto].
    apply first_by_email_Some in F as [Ho Eo]. rewrite En in Eo.
    rewrite (proj2 (Z.eqb_eq _ _) (Own other Ho Eo)). auto. }
  split.
  - destruct (validate (candidate form)) as [r|n] eqn:V.
    + rewrite update_user_post, G, V. cbn. intros [D|[]].
      exact (proj1 (message_distinct r) D).
    + rewrite (proj1 (Ok n eq_refl)). cbn. intros [D|[]]. discriminate.
  - intros n V. destruct (Ok n V) as [U En]. eexists. split; [exact U|].
    unfold view_user. rewrite (get_replaced_same db user_id n user G).
    rewrite En, Hid. reflexivity.
Qed.

Lemma update_own_email_witness :
  let john := mkUser 1 "John" "Doe" "john@x.com" 30 "NYC" 7 in
  let jane := mkUser 2 "Jane" "Roe" "jane@x.com" 25 "LA" 9 in
  let form := [("first_name", "John Updated"); ("last_name", "Doe");
               ("email", "john@x.com"); ("age", "30"); ("city", "NYC")] in
  consistent [john; jane]
  /\ Sql.get [john; jane] 1 = Some john
  /\ Py.strip (get form "email" "") = email john
  /\ validate (candidate form)
     = inr (mkNormalized "John Updated" "Doe" "john@x.com" 30 "NYC")
  /\ ~ In duplicate_email (flashed (snd (update_user 1 POST form [john; jane])))
  /\ exists db',
       update_user 1 POST form [john; jane]
         = (db', respond [updated] (redirect "index"))
       /\ view_user 1 db'
          = respond [] (render_template "view.html"
              (with_user (mkUser 1 "John Updated" "Doe" "john@x.com" 30 "NYC" 7))).
Proof.
  intros john jane form.
  assert (C : consistent [john; jane]).
  { split; repeat constructor; simpl; intuition discriminate. }
  split; [exact C|]. split; [reflexivity|]. split; [reflexivity|].
  split; [reflexivity|].
  destruct (update_own_email [john; jane] 1 john form C eq_refl eq_refl)
    as [D S].
  split; [exact D|]. exact (S _ eq_refl).
Defined.

(** C7, as stated, fails on a field set that does not pass validation: the
    e-mail is another record's, yet the rejection names the age. *)
Lemma update_duplicate_email_counterexample :
  let john := mkUser 1 "John" "Doe" "john@x.com" 30 "NYC" 7 in
  let jane := mkUser 2 "Jane" "Roe" "jane@x.com" 25 "LA" 9 in
  let form := [("first_name", "John"); ("last_name", "Doe");
               ("email", "jane@x.com"); ("age", "abc"); ("city", "NYC")] in
  Sql.get [john; jane] 1 = Some john
  /\ In jane [john; jane] /\ jane <> john
  /\ Py.strip (get form "email" "") = email jane
  /\ update_user 1 POST form [john; jane]
     = update_rejected [john; jane] john ("Age must be a valid number!", "error")
  /\ update_user 1 POST form [john; jane]
     <> update_rejected [john; jane] john duplicate_email.
Proof.
  intros john jane form. repeat split; try reflexivity.
  - right; left; reflexivity.
  - discriminate.
  - vm_compute. discriminate.
Qed.

(** C7, amended. In a table that satisfies its constraints, when the trimmed
    e-mail of the submitted field set is owned by a record other than the one
    being updated, Update never changes the table, whatever the other fields
    are, so the record is read back as it was; if the field set passes
    validation, Update fails with the duplicate-email error; and the table
    itself would refuse the change with its uniqueness constraint. *)
Theorem update_duplicate_email (db : Sql.Table) (user_id : Z) (r1 r2 : User)
    (form : MultiDict) :
  consistent db ->
  Sql.get db user_id = Some r1 ->
  In r2 db -> r2 <> r1 ->
  Py.strip (get form "email" "") = email r2 ->
  fst (update_user user_id POST form db) = db
  /\ view_user user_id (fst (update_user user_id POST form db))
     = respond [] (render_template "view.html" (with_user r1))
  /\ (forall n, validate (candidate form) = inr n ->
        update_user user_id POST form db = update_rejected db r1 duplicate_email)
  /\ (forall fn ln a ci,
        Sql.update db user_id fn ln (email r2) a ci
        = Sql.Raised Sql.unique_failed).
Proof.
  intros [Ni Ne] G H2 Diff E.
  destruct (get_Some _ _ _ G) as [H1 Hid].
  assert (Other : id r2 <> user_id).
  { intros I. apply Diff.
    apply (NoDup_map_injective id db r2 r1 Ni H2 H1). congruence. }
  assert (Dup : forall n, validate (candidate form) = inr n ->
                 update_user user_id POST form db
                 = update_rejected db r1 duplicate_email).
  { intros n V. destruct (validate_accepted _ _ V) as (_ & _ & En & _).
    cbn [candidate c_email] in En. rewrite E in En.
    rewrite update_user_post, G, V. unfold change. rewrite En.
    destruct (Sql.first_by_email db (email r2)) as [other|] eqn:F.
    - apply first_by_email_Some in F as [Ho Eo].
      rewrite (NoDup_map_injective email db other r2 Ne Ho H2 Eo).
      rewrite (proj2 (Z.eqb_neq _ _) Other). reflexivity.
    - exfalso. exact (proj1 (first_by_email_None _ _) F r2 H2 eq_refl). }
  assert (Same : fst (update_user user_id POST form db) = db).
  { destruct (validate (candidate form)) as [r|n] eqn:V.
    - rewrite update_user_post, G, V. reflexivity.
    - rewrite (Dup n eq_refl). reflexivity. }
  split; [exact Same|]. split; [|split].
  - rewrite Same. unfold view_user. rewrite G. reflexivity.
  - exact Dup.
  - intros. apply update_refused; assumption.
Qed.

Lemma update_duplicate_email_witness :
  let john := mkUser 1 "John" "Doe" "john@x.com" 30 "NYC" 7 in
  let jane := mkUser 2 "Jane" "Roe" "jane@x.com" 25 "LA" 9 in
  let form := [("first_name", "John"); ("last_name", "Doe");
               ("email", "jane@x.com"); ("age", "30"); ("city", "NYC")] in
  consistent [john; jane]
  /\ Sql.get [john; jane] 1 = Some john
  /\ In jane [john; jane] /\ jane <> john
  /\ Py.strip (get form "email" "") = email jane
  /\ validate (candidate form)
     = inr (mkNormalized "John" "Doe" "jane@x.com" 30 "NYC")
  /\ update_user 1 POST form [john; jane]
     = update_rejected [john; jane] john duplicate_email
  /\ view_user 1 (fst (update_user 1 POST form [john; jane]))
     = respond [] (render_template "view.html" (with_user john)).
Proof.
  intros john jane form.
  assert (C : consistent [john; jane]).
  { split; repeat constructor; simpl; intuition discriminate. }
  assert (I : In jane [john; jane]) by (right; left; reflexivity).
  assert (D : jane <> john) by discriminate.
  split; [exact C|]. split; [reflexivity|]. split; [exact I|].
  split; [exact D|]. split; [reflexivity|]. split; [reflexivity|].
  destruct (update_duplicate_email [john; jane] 1 john jane form C eq_refl I D
              eq_refl) as (_ & R & F & _).
  split; [exact (F _ eq_refl)|exact R].
Defined.

(** C8. A successful update of an existing record replaces its five editable
    fields by the trimmed strings and the parsed age of the submitted field
    set; the record keeps its identifier and its creation time; every other
    record is still in the table, is read as before, and no record is added
    or removed: the identifiers and creation times of the table, in order,
    are the same. *)
Theorem update_replaces_five_fields (db db' : Sql.Table) (user_id : Z)
    (user : User) (form : MultiDict) (response : Response) :
  Sql.get db user_id = Some user ->
  update_user user_id POST form db = (db', response) ->
  flashed response = [updated] ->
  (exists a,
      Py.int (Py.strip (get form "age" "")) = Some a
      /\ Sql.get db' user_id
         = Some (mkUser (id user)
                        (Py.strip (get form "first_name" ""))
                        (Py.strip (get form "last_name" ""))
                        (Py.strip (get form "email" ""))
                        a
                        (Py.strip (get form "city" ""))
                        (created_at user)))
  /\ (forall pk, pk <> user_id -> Sql.get db' pk = Sql.get db pk)
  /\ (forall u, id u <> user_id -> (In u db' <-> In u db))
  /\ map id db' = map id db
  /\ map created_at db' = map created_at db.
Proof.
  intros G U S. rewrite update_user_post, G in U.
  destruct (validate (candidate form)) as [r|n] eqn:V.
  { injection U as _ <-. cbn in S. destruct r; discriminate S. }
  unfold change in U.
  destruct (match Sql.first_by_email db (n_email n) with
            | Some other => negb (id other =? user_id)%Z
            | None => false end).
  { injection U as _ <-. discriminate. }
  unfold Sql.update in U. destruct (existsb _ db).
  { injection U as _ <-. discriminate. }
  injection U as U _. change (map (replaced user_id n) db = db') in U.
  subst db'.
  destruct (validate_accepted _ _ V) as (Ef & El & Ee & Ea & Ec & _).
  cbn [candidate c_first_name c_last_name c_email c_age c_city] in *.
  split; [|split; [|split]].
  - exists (n_age n). split; [exact Ea|].
    rewrite (get_replaced_same db user_id n user G). congruence.
  - intros pk N. apply get_replaced_other. exact N.
  - intros u N. apply replaced_other. exact N.
  - apply replaced_keys.
Qed.

Lemma update_replaces_five_fields_witness :
  let john := mkUser 1 "John" "Doe" "john@x.com" 30 "NYC" 7 in
  let jane := mkUser 2 "Jane" "Roe" "jane@x.com" 25 "LA" 9 in
  let form := [("first_name", "Jane"); ("last_name", "Smith");
               ("email", "jane@y.com"); ("age", "25"); ("city", " LA")] in
  let db' := [mkUser 1 "Jane" "Smith" "jane@y.com" 25 "LA" 7; jane] in
  Sql.get [john; jane] 1 = Some john
  /\ update_user 1 POST form [john; jane]
     = (db', respond [updated] (redirect "index"))
  /\ (forall pk, pk <> 1%Z -> Sql.get db' pk = Sql.get [john; jane] pk)
  /\ map id db' = map id [john; jane]
  /\ map created_at db' = map created_at [john; jane].
Proof.
  intros john jane form db'.
  split; [reflexivity|]. split; [reflexivity|].
  destruct (update_replaces_five_fields [john; jane] db' 1 john form
              (respond [updated] (redirect "index")) eq_refl eq_refl eq_refl)
    as (_ & O & _ & K).
  split; [exact O|exact K].
Defined.

(* ------------------------------------------------------------------ *)
(** ** The constraints of the table are kept *)
(* ------------------------------------------------------------------ *)

Lemma NoDup_map_filter {A B : Type} (f : A -> B) (g : A -> bool) (l : list A) :
  NoDup (map f l) -> NoDup (map f (filter g l)).
Proof.
  induction l as [|a l IH]; simpl; [auto|].
  intros N. inversion N as [|? ? Na Nl]; subst.
  destruct (g a); simpl; [|auto]. constructor; [|auto].
  intros (b & E & Hb)%in_map_iff. apply filter_In in Hb as [Hb _].
  apply Na. rewrite <- E. apply in_map. exact Hb.
Qed.

Lemma NoDup_email_replaced (db : Sql.Table) (pk : Z) (n : Normalized) :
  NoDup (map id db) -> NoDup (map email db) ->
  (forall u, In u db -> email u = n_email n -> id u = pk) ->
  NoDup (map email (map (replaced pk n) db)).
Proof.
  induction db as [|v db IH]; simpl; [auto|]. intros Ni Ne Own.
  inversion Ni as [|? ? Nv Ni']; inversion Ne as [|? ? Ev Ne']; subst.
  constructor; [|apply IH; auto].
  intros (w' & E & (w & <- & Hw)%in_map_iff)%in_map_iff.
  unfold replaced in E.
  destruct (Z.eqb_spec (id w) pk) as [Iw|Iw], (Z.eqb_spec (id v) pk) as [Iv|Iv];
    cbn [email] in E.
  - apply Nv. rewrite Iv, <- Iw. apply in_map. exact Hw.
  - apply Iv. apply Own; auto.
  - apply Iw. apply Own; auto.
  - apply Ev. rewrite <- E. apply in_map. exact Hw.
Qed.

(** The empty table satisfies the constraints, and every handler keeps them:
    the pre-checks never let the table refuse a change. *)
Lemma consistent_kept (db : Sql.Table) (method : Method) (form : MultiDict)
    (now user_id : Z) :
  consistent [] /\
  (consistent db ->
   consistent (fst (add_user method form now db))
   /\ consistent (fst (update_user user_id method form db))
   /\ consistent (fst (delete_user user_id db))).
Proof.
  split; [split; constructor|]. intros [Ni Ne]. split; [|split].
  - destruct method; [split; assumption|]. rewrite add_user_post.
    destruct (validate (candidate form)) as [r|n]; [split; assumption|].
    unfold create.
    destruct (Sql.first_by_email db (n_email n)) eqn:F; [split; assumption|].
    rewrite (proj2 (insert_refused db now _ _ _ _ _) F). cbn [fst].
    split; rewrite map_app; cbn [map id email]; apply NoDup_app; auto;
      try (constructor; [intros []|constructor]).
    + intros a (u & <- & Hu)%in_map_iff [E|[]].
      apply next_rowid_above in Hu. lia.
    + intros a (u & <- & Hu)%in_map_iff [E|[]].
      exact (proj1 (first_by_email_None _ _) F u Hu (eq_sym E)).
  - destruct method.
    { unfold update_user. destruct (Sql.get db user_id); split; assumption. }
    rewrite update_user_post.
    destruct (Sql.get db user_id) as [user|]; [|split; assumption].
    destruct (validate (candidate form)) as [r|n]; [split; assumption|].
    unfold change.
    destruct (Sql.first_by_email db (n_email n)) as [other|] eqn:F.
    + destruct (Z.eqb_spec (id other) user_id) as [I|I]; cbn [negb];
        [|split; assumption].
      apply first_by_email_Some in F as [Ho Eo].
      assert (Own : forall u, In u db -> email u = n_email n -> id u = user_id).
      { intros u Hu Eu.
        rewrite (NoDup_map_injective email db u other Ne Hu Ho); congruence. }
      rewrite update_map by exact Own. cbn [fst]. split.
      * rewrite (proj1 (replaced_keys _ _ _)). exact Ni.
      * apply NoDup_email_replaced; assumption.
    + assert (Own : forall u, In u db -> email u = n_email n -> id u = user_id).
      { intros u Hu Eu.
        exfalso. exact (proj1 (first_by_email_None _ _) F u Hu Eu). }
      rewrite update_map by exact Own. cbn [fst]. split.
      * rewrite (proj1 (replaced_keys _ _ _)). exact Ni.
      * apply NoDup_email_replaced; assumption.
  - unfold delete_user. destruct (Sql.get db user_id); [|split; assumption].
    cbn [Sql.delete fst]. split; apply NoDup_map_filter; assumption.
Qed.

(* ------------------------------------------------------------------ *)
(** ** [int] on plain numerals *)
(* ------------------------------------------------------------------ *)

Lemma digit_plain (c : ascii) (d : Z) :
  Py.digit_value c = Some d ->
  Py.int_isspace c = false /\ (c =? "_")%char = false
  /\ (c =? "+")%char = false /\ (c =? "-")%char = false.
Proof.
  intros H. destruct c as [[] [] [] [] [] [] [] []];
    solve [repeat split | vm_compute in H; discriminate H].
Qed.

Lemma scan_digits_numeral (s : string) (acc k v : Z) :
  numeral_value acc s = Some v ->
  Py.scan_digits acc k false s = Some (v, (k + Z.of_nat (String.length s))%Z).
Proof.
  revert acc k. induction s as [|c s IH]; intros acc k; cbn [numeral_value].
  - intros [= <-]. cbn. f_equal. f_equal. lia.
  - destruct (Py.digit_value c) as [d|] eqn:D; [|discriminate].
    intros H. cbn [Py.scan_digits].
    destruct (digit_plain c d D) as (_ & -> & _). rewrite D.
    rewrite (IH _ (k + 1)%Z H). f_equal. f_equal. cbn [String.length]. lia.
Qed.

Lemma numeral_no_space (s : string) (acc v : Z) :
  numeral_value acc s = Some v -> Py.int_skip_trailing s = s.
Proof.
  revert acc. induction s as [|c s IH]; intros acc;
    cbn [numeral_value Py.int_skip_trailing]; [reflexivity|].
  destruct (Py.digit_value c) as [d|] eqn:D; [|discriminate].
  intros H. rewrite (IH _ H). destruct (digit_plain c d D) as (-> & _).
  destruct s; reflexivity.
Qed.

(** On a plain decimal numeral within the digit limit, [int] is the usual
    value, and the value negated after a minus sign. *)
Lemma int_plain_numeral (s : string) (v : Z) :
  s <> "" ->
  numeral_value 0 s = Some v ->
  (Z.of_nat (String.length s) <= Py.int_max_str_digits)%Z ->
  Py.int s = Some v /\ Py.int (String "-" s) = Some (- v)%Z.
Proof.
  intros N H L. pose proof (numeral_no_space s 0 v H) as R.
  pose proof (scan_digits_numeral s 0 0 v H) as S.
  destruct s as [|c s]; [congruence|].
  cbn [numeral_value] in H.
  destruct (Py.digit_value c) as [d|] eqn:D; [|discriminate].
  destruct (digit_plain c d D) as (W & U & P & M).
  assert (Strip : Py.int_skip_leading (String c s) = String c s)
    by (simpl; rewrite W; reflexivity).
  assert (Limit : (Py.int_max_str_digits <? 0 + Z.of_nat (String.length (String c s)))%Z
                  = false) by (apply Z.ltb_ge; lia).
  split.
  - unfold Py.int. rewrite R, Strip.
    assert (Body : match String c s with
                   | String "+" r => (false, r)
                   | String "-" r => (true, r)
                   | _ => (false, String c s)
                   end = (false, String c s)).
    { destruct c as [[] [] [] [] [] [] [] []]; try reflexivity; discriminate. }
    rewrite Body. rewrite U, S, Limit. reflexivity.
  - unfold Py.int.
    assert (R' : Py.int_skip_trailing (String "-" (String c s))
                 = String "-" (String c s)).
    { change (Py.int_skip_trailing (String "-" (String c s)))
        with (match Py.int_skip_trailing (String c s) with
              | EmptyString => String "-" EmptyString
              | r => String "-" r end).
      rewrite R. reflexivity. }
    rewrite R'. cbn [Py.int_skip_leading]. change (Py.int_isspace "-") with false.
    cbv iota. rewrite U, S, Limit. reflexivity.
Qed.

(* ------------------------------------------------------------------ *)
(** ** What every stored row satisfies *)
(* ------------------------------------------------------------------ *)

Lemma len_inside (s : string) :
  ((Py.len s <? 2)%nat || (50 <? Py.len s)%nat) = false ->
  2 <= String.length s <= 50.
Proof.
  unfold Py.len. intros H. apply orb_false_iff in H as [H1 H2].
  apply Nat.ltb_ge in H1, H2. lia.
Qed.

Lemma validate_checked (c : Candidate) (n : Normalized) (pk time : Z) :
  validate c = inr n ->
  checked (mkUser pk (n_first_name n) (n_last_name n) (n_email n) (n_age n)
                  (n_city n) time).
Proof.
  intros V. destruct (validate_accepted _ _ V) as (Ef & El & Ee & _ & Ec & Ne & Ha).
  revert V. rewrite validate_cascade. unfold trim.
  cbn [c_first_name c_last_name c_email c_age c_city].
  destruct (negb _); [discriminate|].
  destruct ((Py.len (Py.strip (c_first_name c)) <? 2)%nat || _) eqn:Lf;
    [discriminate|].
  destruct ((Py.len (Py.strip (c_last_name c)) <? 2)%nat || _) eqn:Ll;
    [discriminate|].
  destruct (Py.int _) as [a|]; [|discriminate].
  destruct ((a <=? 0)%Z || _); [discriminate|].
  destruct ((Py.len (Py.strip (c_city c)) <? 2)%nat || _) eqn:Lc;
    [discriminate|].
  intros _. apply len_inside in Lf, Ll, Lc.
  unfold checked. cbn [first_name last_name email age city].
  rewrite Ef, El, Ee, Ec, !strip_idem. rewrite Ee in Ne.
  repeat split; try lia; auto.
  destruct (Py.strip (c_email c)); [congruence|simpl; lia].
Qed.

(** X1. Every handler keeps the rows checked: if every row of the table has
    trimmed strings, names and city of 2 to 50 characters, a non-empty e-mail
    and an age from 1 to 150, so has every row of the table after [add_user],
    after [update_user] and after [delete_user], whatever the request. *)
Theorem rows_stay_checked (db : Sql.Table) (method : Method) (form : MultiDict)
    (now user_id : Z) :
  Forall checked db ->
  Forall checked (fst (add_user method form now db))
  /\ Forall checked (fst (update_user user_id method form db))
  /\ Forall checked (fst (delete_user user_id db)).
Proof.
  intros H. split; [|split].
  - destruct method; [exact H|]. rewrite add_user_post.
    destruct (validate (candidate form)) as [r|n] eqn:V; [exact H|].
    unfold create. destruct (Sql.first_by_email db (n_email n)); [exact H|].
    unfold Sql.insert. destruct (existsb _ db); [exact H|]. cbn [fst].
    apply Forall_app. split; [exact H|]. constructor; [|constructor].
    exact (validate_checked _ _ _ _ V).
  - destruct method.
    { unfold update_user. destruct (Sql.get db user_id); exact H. }
    rewrite update_user_post. destruct (Sql.get db user_id) as [user|]; [|exact H].
    destruct (validate (candidate form)) as [r|n] eqn:V; [exact H|].
    unfold change.
    destruct (match Sql.first_by_email db (n_email n) with
              | Some other => negb (id other =? user_id)%Z
              | None => false end); [exact H|].
    unfold Sql.update. destruct (existsb _ db); [exact H|]. cbn [fst].
    apply Forall_forall. intros u (v & <- & Hv)%in_map_iff.
    destruct (id v =? user_id)%Z.
    + exact (validate_checked _ _ _ _ V).
    + exact (proj1 (Forall_forall _ _) H v Hv).
  - unfold delete_user. destruct (Sql.get db user_id) as [user|]; [|exact H].
    cbn [Sql.delete fst]. apply Forall_forall. intros w [Hw _]%filter_In.
    exact (proj1 (Forall_forall _ _) H w Hw).
Qed.

Lemma rows_stay_checked_witness :
  let db := [mkUser 1 "John" "Doe" "john@x.com" 30 "NYC" 7] in
  let form := [("first_name", " Jane "); ("last_name", "Roe");
               ("email", "jane@x.com"); ("age", "25"); ("city", "LA")] in
  Forall checked db
  /\ fst (add_user POST form 9 db)
     = [mkUser 1 "John" "Doe" "john@x.com" 30 "NYC" 7;
        mkUser 2 "Jane" "Roe" "jane@x.com" 25 "LA" 9]
  /\ Forall checked (fst (add_user POST form 9 db))
  /\ Forall checked (fst (update_user 1 POST form db))
  /\ Forall checked (fst (delete_user 1 db)).
Proof.
  intros db form.
  assert (H : Forall checked db).
  { constructor; [|constructor]. unfold checked. simpl.
    repeat split; try reflexivity; lia. }
  split; [exact H|]. split; [reflexivity|].
  exact (rows_stay_checked db POST form 9 1 H).
Defined.

(* ------------------------------------------------------------------ *)
(** ** The table never refuses what a handler commits *)
(* ------------------------------------------------------------------ *)

(** X2. Every handler keeps the constraints the model declares: if the
    identifiers of the table are pairwise distinct and so are its e-mails,
    they still are after [add_user], after [update_user] and after
    [delete_user], whatever the request. *)
Theorem constraints_kept (db : Sql.Table) (method : Method) (form : MultiDict)
    (now user_id : Z) :
  consistent db ->
  consistent (fst (add_user method form now db))
  /\ consistent (fst (update_user user_id method form db))
  /\ consistent (fst (delete_user user_id db)).
Proof. exact (proj2 (consistent_kept db method form now user_id)). Qed.

Lemma constraints_kept_witness :
  let db := [mkUser 1 "John" "Doe" "john@x.com" 30 "NYC" 7;
             mkUser 2 "Jane" "Roe" "jane@x.com" 25 "LA" 9] in
  let form := [("first_name", "Jim"); ("last_name", "Poe");
               ("email", "jim@x.com"); ("age", "41"); ("city", "Rome")] in
  consistent db
  /\ map email (fst (update_user 2 POST form db)) = ["john@x.com"; "jim@x.com"]
  /\ consistent (fst (add_user POST form 11 db))
  /\ consistent (fst (update_user 2 POST form db))
  /\ consistent (fst (delete_user 2 db)).
Proof.
  intros db form.
  assert (C : consistent db).
  { split; repeat constructor; simpl; intuition discriminate. }
  split; [exact C|]. split; [reflexivity|].
  exact (constraints_kept db POST form 11 2 C).
Defined.




(* ------------------------------------------------------------------ *)
(** ** How the handlers compose *)
(* ------------------------------------------------------------------ *)

Lemma filter_all {A : Type} (f : A -> bool) (l : list A) :
  (forall x, In x l -> f x = true) -> filter f l = l.
Proof.
  induction l as [|a l IH]; simpl; [reflexivity|]. intros H.
  rewrite (H a (or_introl eq_refl)), IH; [reflexivity|].
  intros x Hx. apply H. right. exact Hx.
Qed.

(** X5. Deleting a record right after its creation restores the table:
    when [add_user] succeeds on [db], [delete_user] of the identifier it
    assigned, on the resulting table, gives back exactly [db] and confirms
    with the trimmed first and last name that were submitted. *)
Theorem create_then_delete (form : MultiDict) (now : Z)
    (db db' : Sql.Table) (response : Response) :
  add_user POST form now db = (db', response) ->
  flashed response = [added] ->
  delete_user (Sql.next_rowid db) db'
  = (db, respond [("User " ++ Py.strip (get form "first_name" "") ++ " "
                     ++ Py.strip (get form "last_name" "")
                     ++ " deleted successfully!", "success")]
                 (redirect "index")).
Proof.
  intros A S. rewrite add_user_post in A.
  destruct (validate (candidate form)) as [r|n] eqn:V.
  { injection A as _ <-. cbn in S. destruct r; discriminate S. }
  destruct (validate_accepted _ _ V) as (Ef & El & _).
  cbn [candidate c_first_name c_last_name] in Ef, El.
  unfold create in A.
  destruct (Sql.first_by_email db (n_email n)) eqn:F.
  { injection A as _ <-. discriminate S. }
  rewrite (proj2 (insert_refused db now _ _ _ _ _) F) in A.
  injection A as <- _.
  assert (New : forall v, In v db -> id v <> Sql.next_rowid db).
  { intros v Hv. apply next_rowid_above in Hv. lia. }
  unfold delete_user.
  rewrite (get_app_new db (mkUser (Sql.next_rowid db) _ _ _ _ _ now) New).
  cbn [Sql.delete first_name last_name]. rewrite filter_app.
  rewrite filter_all.
  - cbn [filter id]. rewrite Z.eqb_refl. cbn [negb]. rewrite app_nil_r.
    rewrite Ef, El. reflexivity.
  - intros v Hv. apply negb_true_iff, Z.eqb_neq. apply New. exact Hv.
Qed.

Lemma create_then_delete_witness :
  let db := [mkUser 1 "John" "Doe" "john@x.com" 30 "NYC" 7] in
  let form := [("first_name", " Jane "); ("last_name", "Roe");
               ("email", "jane@x.com"); ("age", "25"); ("city", "LA")] in
  let db' := [mkUser 1 "John" "Doe" "john@x.com" 30 "NYC" 7;
              mkUser 2 "Jane" "Roe" "jane@x.com" 25 "LA" 9] in
  add_user POST form 9 db = (db', respond [added] (redirect "index"))
  /\ delete_user 2 db'
     = (db, respond [("User Jane Roe deleted successfully!", "success")]
                    (redirect "index")).
Proof.
  intros db form db'. split; [reflexivity|].
  exact (create_then_delete form 9 db db' (respond [added] (redirect "index"))
           eq_refl eq_refl).
Defined.

Lemma replaced_twice (pk : Z) (n : Normalized) (db : Sql.Table) :
  map (replaced pk n) (map (replaced pk n) db) = map (replaced pk n) db.
Proof.
  rewrite map_map. apply map_ext. intros u. unfold replaced at 2.
  destruct (Z.eqb_spec (id u) pk) as [E|E].
  - unfold replaced. cbn [id created_at]. rewrite (proj2 (Z.eqb_eq _ _) E).
    reflexivity.
  - unfold replaced. rewrite (proj2 (Z.eqb_neq _ _) E). reflexivity.
Qed.

(** X6. A successful update can be repeated: submitting the same field set
    for the same identifier again succeeds again and leaves the table
    exactly as the first update left it. *)
Theorem update_twice (user_id : Z) (form : MultiDict) (db db' : Sql.Table)
    (response : Response) :
  update_user user_id POST form db = (db', response) ->
  flashed response = [updated] ->
  update_user user_id POST form db' = (db', response).
Proof.
  intros U S. rewrite update_user_post in U.
  destruct (Sql.get db user_id) as [user|] eqn:G.
  2:{ injection U as _ <-. unfold no_such_user in S.
      destruct (Sql.fits user_id); discriminate S. }
  destruct (validate (candidate form)) as [r|n] eqn:V.
  { injection U as _ <-. cbn in S. destruct r; discriminate S. }
  unfold change in U.
  destruct (match Sql.first_by_email db (n_email n) with
            | Some other => negb (id other =? user_id)%Z
            | None => false end).
  { injection U as _ <-. discriminate S. }
  unfold Sql.update in U.
  destruct (existsb _ db) eqn:X.
  { injection U as _ <-. discriminate S. }
  injection U as U R. change (map (replaced user_id n) db = db') in U.
  subst db' response. clear S.
  assert (Own : forall u, In u (map (replaced user_id n) db) ->
                          email u = n_email n -> id u = user_id).
  { intros u (v & <- & Hv)%in_map_iff Eu. rewrite replaced_id.
    unfold replaced in Eu. destruct (Z.eqb_spec (id v) user_id) as [E|E];
      [exact E|].
    exfalso.
    assert (existsb (fun u => negb (id u =? user_id)%Z
                              && (email u =? n_email n)%string) db = true);
      [|congruence].
    apply existsb_exists. exists v. split; [exact Hv|].
    rewrite Eu, String.eqb_refl, andb_true_r.
    apply negb_true_iff, Z.eqb_neq. exact E. }
  rewrite update_user_post, (get_replaced_same db user_id n user G), V.
  unfold change. rewrite update_map by exact Own. rewrite replaced_twice.
  destruct (Sql.first_by_email (map (replaced user_id n) db) (n_email n))
    as [other|] eqn:F; [|reflexivity].
  apply first_by_email_Some in F as [Ho Eo].
  rewrite (proj2 (Z.eqb_eq _ _) (Own other Ho Eo)). reflexivity.
Qed.

Lemma update_twice_witness :
  let db := [mkUser 1 "John" "Doe" "john@x.com" 30 "NYC" 7;
             mkUser 2 "Jane" "Roe" "jane@x.com" 25 "LA" 9] in
  let form := [("first_name", "Jim"); ("last_name", "Poe");
               ("email", "jim@x.com"); ("age", "41"); ("city", "Rome")] in
  let db' := [mkUser 1 "John" "Doe" "john@x.com" 30 "NYC" 7;
              mkUser 2 "Jim" "Poe" "jim@x.com" 41 "Rome" 9] in
  update_user 2 POST form db = (db', respond [updated] (redirect "index"))
  /\ update_user 2 POST form db' = (db', respond [updated] (redirect "index")).
Proof.
  intros db form db'. split; [reflexivity|].
  exact (update_twice 2 form db db' (respond [updated] (redirect "index"))
           eq_refl eq_refl).
Defined.

Lemma filter_one_out (db : Sql.Table) (pk : Z) (user : User) :
  NoDup (map id db) -> Sql.get db pk = Some user ->
  S (List.length (filter (fun u => negb (id u =? pk)%Z) db)) = List.length db.
Proof.
  unfold Sql.get. induction db as [|v db IH]; simpl; [discriminate|].
  intros N. inversion N as [|? ? Nv N']; subst.
  destruct (Z.eqb_spec (id v) pk) as [E|E]; simpl.
  - intros _. f_equal. rewrite filter_all; [reflexivity|].
    intros x Hx. apply negb_true_iff, Z.eqb_neq. intros Ex.
    apply Nv. rewrite E, <- Ex. apply in_map. exact Hx.
  - intros G. f_equal. apply IH; assumption.
Qed.

(** X7. On a table that satisfies its constraints, deleting an existing
    record removes exactly one row, and deleting the same identifier once
    more changes nothing and is answered as an identifier that no row bears:
    by the 404 abort, the identifier being a 64-bit integer as rowids are. *)
Theorem delete_once (db : Sql.Table) (user_id : Z) (user : User) :
  consistent db ->
  Sql.get db user_id = Some user ->
  S (List.length (fst (delete_user user_id db))) = List.length db
  /\ delete_user user_id (fst (delete_user user_id db))
     = (fst (delete_user user_id db), no_such_user user_id)
  /\ (Sql.fits user_id = true -> no_such_user user_id = not_found).
Proof.
  intros [Ni _] G. unfold delete_user at 1 3 4. rewrite G.
  cbn [Sql.delete fst]. split; [exact (filter_one_out db user_id user Ni G)|].
  split.
  - unfold delete_user. rewrite (proj2 (get_None _ user_id)); [reflexivity|].
    intros u [_ Hu]%filter_In. apply negb_true_iff, Z.eqb_neq in Hu. exact Hu.
  - intros F. unfold no_such_user, not_found. rewrite F. reflexivity.
Qed.

Lemma delete_once_witness :
  let john := mkUser 1 "John" "Doe" "john@x.com" 30 "NYC" 7 in
  let jane := mkUser 2 "Jane" "Roe" "jane@x.com" 25 "LA" 9 in
  consistent [john; jane]
  /\ Sql.get [john; jane] 1 = Some john
  /\ fst (delete_user 1 [john; jane]) = [jane]
  /\ S (List.length (fst (delete_user 1 [john; jane])))
     = List.length [john; jane]
  /\ delete_user 1 (fst (delete_user 1 [john; jane]))
     = (fst (delete_user 1 [john; jane]), not_found).
Proof.
  intros john jane.
  assert (C : consistent [john; jane]).
  { split; repeat constructor; simpl; intuition discriminate. }
  split; [exact C|]. split; [reflexivity|]. split; [reflexivity|].
  destruct (delete_once [john; jane] 1 john C eq_refl) as (L & D & _).
  split; [exact L|exact D].
Defined.

(* ------------------------------------------------------------------ *)
(** ** More about search *)
(* ------------------------------------------------------------------ *)

Lemma lower_empty (s : string) : Sql.lower s = "" -> s = "".
Proof. destruct s; [reflexivity|discriminate]. Qed.

Lemma like_ci_app (q m p t : string) :
  Sql.lower m = Sql.lower q ->
  Sql.pattern_compare p t = true ->
  Sql.pattern_compare (q ++ p) (m ++ t) = true.
Proof.
  revert m. induction q as [|a q IH]; intros m L H.
  - apply lower_empty in L. subst m. exact H.
  - destruct m as [|b m]; [discriminate|]. simpl in L. injection L as Lc Lm.
    simpl append. destruct (Ascii.eqb_spec a "%") as [->|Ha].
    + apply like_percent. exists (String b ""), (m ++ t). split; [reflexivity|].
      apply IH; assumption.
    + rewrite like_char_unfold by (apply Ascii.eqb_neq; exact Ha).
      rewrite Lc, Ascii.eqb_refl, orb_true_r. apply IH; assumption.
Qed.

(** Whatever pattern characters the query holds, a text that contains it
    up to ASCII case matches the pattern built from it. *)
Lemma contains_compare (column q : string) :
  contains_ci column q = true ->
  Sql.pattern_compare ("%" ++ q ++ "%") column = true.
Proof.
  intros (pre & mid & post & -> & L)%contains_ci_spec.
  change ("%" ++ q ++ "%") with (String "%" (q ++ "%")).
  apply like_percent. exists pre, (mid ++ post). split; [reflexivity|].
  apply like_ci_app; [exact L|apply like_only_percent].
Qed.

Lemma pattern_nul_free (q : string) :
  occurs NUL q = false -> occurs NUL ("%" ++ q ++ "%") = false.
Proof.
  intros N. simpl. induction q as [|c q IH]; [reflexivity|].
  simpl in *. apply orb_false_iff in N as [Nc Nq]. rewrite Nc. exact (IH Nq).
Qed.

(** X8. Search does not miss a record within reach of the query: for every
    query that is not blank, holds no NUL and gives a pattern within the
    length limit of [LIKE], with or without the pattern characters [%] and
    [_], every record one of whose first name, last name or city contains
    the trimmed query, before any NUL of the field and up to ASCII case, is
    among the users passed to the template. *)
Theorem search_finds_containing (args : MultiDict) (db : Sql.Table) (u : User) :
  let q := Py.strip (get args "query" "") in
  q <> "" ->
  occurs NUL q = false ->
  within_limit q ->
  In u db ->
  contains_ci (Sql.c_str (first_name u)) q
  || contains_ci (Sql.c_str (last_name u)) q
  || contains_ci (Sql.c_str (city u)) q = true ->
  exists users,
    search_users args db
      = respond [] (render_template "search.html" (with_search users q))
    /\ In u users.
Proof.
  intros q Q N L Hu C. exists (filter (matches ("%" ++ q ++ "%")) db).
  split; [exact (proj1 (search_eval args db Q) L)|].
  apply filter_In. split; [exact Hu|]. unfold matches.
  rewrite (c_str_plain _ (pattern_nul_free q N)).
  apply orb_true_iff in C as [C|C]; [apply orb_true_iff in C as [C|C]|];
    rewrite (contains_compare _ _ C), ?orb_true_r; reflexivity.
Qed.

Lemma search_finds_containing_witness :
  let john := mkUser 1 "John" "Doe" "john@x.com" 30 "New_York" 7 in
  let jane := mkUser 2 "Jane" "Roe" "jane@x.com" 25 "LA" 9 in
  let args := [("query", " w_YO ")] in
  Py.strip (get args "query" "") <> ""
  /\ occurs NUL (Py.strip (get args "query" "")) = false
  /\ within_limit (Py.strip (get args "query" ""))
  /\ In john [john; jane]
  /\ contains_ci (Sql.c_str (city john)) (Py.strip (get args "query" "")) = true
  /\ exists users,
       search_users args [john; jane]
         = respond [] (render_template "search.html" (with_search users "w_YO"))
       /\ In john users.
Proof.
  intros john jane args.
  assert (Q : Py.strip (get args "query" "") <> "") by (vm_compute; discriminate).
  assert (L : within_limit (Py.strip (get args "query" "")))
    by (vm_compute; discriminate).
  assert (I : In john [john; jane]) by (left; reflexivity).
  split; [exact Q|]. split; [reflexivity|]. split; [exact L|].
  split; [exact I|]. split; [reflexivity|].
  exact (search_finds_containing args [john; jane] john Q eq_refl L I eq_refl).
Defined.

Lemma isspace_lower_char (c : ascii) :
  Py.isspace (Sql.lower_char c) = Py.isspace c.
Proof. each_char c. Qed.

Lemma lower_lstrip (s : string) :
  Sql.lower (Py.lstrip s) = Py.lstrip (Sql.lower s).
Proof.
  induction s as [|c s IH]; [reflexivity|]. cbn [Py.lstrip Sql.lower].
  rewrite isspace_lower_char. destruct (Py.isspace c); [exact IH|reflexivity].
Qed.

Lemma lower_rstrip (s : string) :
  Sql.lower (Py.rstrip s) = Py.rstrip (Sql.lower s).
Proof.
  induction s as [|c s IH]; [reflexivity|]. cbn [Py.rstrip Sql.lower].
  rewrite <- IH, isspace_lower_char.
  destruct (Py.rstrip s); cbn [Sql.lower]; [|reflexivity].
  destruct (Py.isspace c); reflexivity.
Qed.

Lemma lower_strip (s : string) : Sql.lower (Py.strip s) = Py.strip (Sql.lower s).
Proof. unfold Py.strip. rewrite lower_lstrip, lower_rstrip. reflexivity. Qed.

Lemma lower_pattern (q : string) :
  Sql.lower ("%" ++ q ++ "%") = "%" ++ Sql.lower q ++ "%".
Proof.
  simpl. f_equal. induction q as [|c q IH]; [reflexivity|].
  simpl. rewrite IH. reflexivity.
Qed.

(** X9. Search does not depend on the letter case of the query: two
    requests whose queries differ only in the case of ASCII letters get the
    same users, in the same order, or both fail with the same unhandled
    error of the query. *)
Theorem search_ignores_query_case (args1 args2 : MultiDict) (db : Sql.Table) :
  Sql.lower (get args1 "query" "") = Sql.lower (get args2 "query" "") ->
  (exists users,
      search_users args1 db
        = respond [] (render_template "search.html"
                        (with_search users (Py.strip (get args1 "query" ""))))
      /\ search_users args2 db
         = respond [] (render_template "search.html"
                         (with_search users (Py.strip (get args2 "query" "")))))
  \/ (search_users args1 db = respond [] (unhandled "OperationalError")
      /\ search_users args2 db = respond [] (unhandled "OperationalError")).
Proof.
  intros L. unfold search_users.
  set (q1 := Py.strip (get args1 "query" "")).
  set (q2 := Py.strip (get args2 "query" "")).
  assert (Lq : Sql.lower q1 = Sql.lower q2).
  { unfold q1, q2. rewrite !lower_strip, L. reflexivity. }
  assert (T : Py.truthy q1 = Py.truthy q2).
  { destruct q1, q2; try reflexivity; discriminate Lq. }
  rewrite <- T. destruct (Py.truthy q1); [|left; exists []; split; reflexivity].
  rewrite (select_ext
             (fun u => Sql.or_ [Sql.ilike (first_name u) ("%" ++ q2 ++ "%");
                                Sql.ilike (last_name u) ("%" ++ q2 ++ "%");
                                Sql.ilike (city u) ("%" ++ q2 ++ "%")])
             (fun u => Sql.or_ [Sql.ilike (first_name u) ("%" ++ q1 ++ "%");
                                Sql.ilike (last_name u) ("%" ++ q1 ++ "%");
                                Sql.ilike (city u) ("%" ++ q1 ++ "%")]) db).
  - destruct (Sql.select _ db) as [users|e]; [left|right].
    + exists users. split; reflexivity.
    + split; reflexivity.
  - intros u. unfold Sql.ilike. rewrite !lower_pattern, Lq. reflexivity.
Qed.

Lemma search_ignores_query_case_witness :
  let john := mkUser 1 "John" "Doe" "john@x.com" 30 "New York" 7 in
  let jane := mkUser 2 "Jane" "Roe" "jane@x.com" 25 "LA" 9 in
  Sql.lower (get [("query", "JOHN")] "query" "")
  = Sql.lower (get [("query", "john")] "query" "")
  /\ search_users [("query", "JOHN")] [john; jane]
     = respond [] (render_template "search.html" (with_search [john] "JOHN"))
  /\ search_users [("query", "john")] [john; jane]
     = respond [] (render_template "search.html" (with_search [john] "john"))
  /\ ((exists users,
         search_users [("query", "JOHN")] [john; jane]
           = respond [] (render_template "search.html" (with_search users "JOHN"))
         /\ search_users [("query", "john")] [john; jane]
            = respond [] (render_template "search.html" (with_search users "john")))
      \/ (search_users [("query", "JOHN")] [john; jane]
            = respond [] (unhandled "OperationalError")
          /\ search_users [("query", "john")] [john; jane]
             = respond [] (unhandled "OperationalError"))).
Proof.
  intros john jane. split; [reflexivity|]. split; [reflexivity|].
  split; [reflexivity|].
  exact (search_ignores_query_case [("query", "JOHN")] [("query", "john")]
           [john; jane] eq_refl).
Defined.

(* ------------------------------------------------------------------ *)
(** ** The listing *)
(* ------------------------------------------------------------------ *)

Lemma insert_desc_perm (u : User) (l : list User) :
  Permutation (Sql.insert_desc u l) (u :: l).
Proof.
  induction l as [|v l IH]; simpl; [reflexivity|].
  destruct (created_at v <=? created_at u)%Z; [reflexivity|].
  rewrite IH. apply perm_swap.
Qed.

Lemma order_by_perm (db : Sql.Table) :
  Permutation (Sql.order_by_created_at_desc db) db.
Proof.
  induction db as [|u db IH]; simpl; [reflexivity|].
  rewrite insert_desc_perm. constructor. exact IH.
Qed.

Lemma insert_desc_sorted (u : User) (l : list User) :
  newest_first l -> newest_first (Sql.insert_desc u l).
Proof.
  induction l as [|v l IH]; simpl.
  - intros _. split; [intros w []|exact I].
  - intros [Hv Hl]. destruct (Z.leb_spec (created_at v) (created_at u)) as [L|L].
    + split; [|split; assumption].
      intros w [<-|Hw]; [exact L|]. specialize (Hv w Hw). lia.
    + split; [|apply IH; exact Hl].
      intros w Hw. apply (Permutation_in _ (insert_desc_perm u l)) in Hw.
      destruct Hw as [<-|Hw]; [lia|apply Hv; exact Hw].
Qed.

(** X10. The index page lists every record exactly once, the most recently
    created first: the users passed to [index.html] are a rearrangement of
    the rows of the table, in decreasing order of creation time. *)
Theorem index_lists_all_newest_first (db : Sql.Table) :
  template (index db) = "index.html"
  /\ Permutation (users (index db)) db
  /\ newest_first (users (index db)).
Proof.
  unfold index. cbn [template users]. split; [reflexivity|].
  split; [apply order_by_perm|].
  induction db as [|u db IH]; simpl; [exact I|].
  apply insert_desc_sorted. exact IH.
Qed.

Lemma order_by_latest (db : Sql.Table) (u : User) :
  (forall v, In v db -> (created_at v < created_at u)%Z) ->
  Sql.order_by_created_at_desc (db ++ [u])%list
  = u :: Sql.order_by_created_at_desc db.
Proof.
  induction db as [|v db IH]; intros H; [reflexivity|].
  cbn [app Sql.order_by_created_at_desc].
  rewrite IH by (intros w Hw; apply H; right; exact Hw).
  cbn [Sql.insert_desc].
  destruct (Z.leb_spec (created_at u) (created_at v)) as [L|L]; [|reflexivity].
  specialize (H v (or_introl eq_refl)). lia.
Qed.

(** X11. A record created at a time later than the creation time of every
    stored record comes first on the index page, followed by the former
    listing unchanged. *)
Theorem created_record_heads_index (form : MultiDict) (now : Z)
    (db db' : Sql.Table) (response : Response) :
  add_user POST form now db = (db', response) ->
  flashed response = [added] ->
  (forall v, In v db -> (created_at v < now)%Z) ->
  exists u,
    users (index db') = u :: users (index db)
    /\ id u = Sql.next_rowid db
    /\ email u = Py.strip (get form "email" "")
    /\ created_at u = now.
Proof.
  intros A S Later. rewrite add_user_post in A.
  destruct (validate (candidate form)) as [r|n] eqn:V.
  { injection A as _ <-. cbn in S. destruct r; discriminate S. }
  destruct (validate_accepted _ _ V) as (_ & _ & Ee & _).
  cbn [candidate c_email] in Ee.
  unfold create in A.
  destruct (Sql.first_by_email db (n_email n)) eqn:F.
  { injection A as _ <-. discriminate S. }
  rewrite (proj2 (insert_refused db now _ _ _ _ _) F) in A.
  injection A as <- _.
  exists (mkUser (Sql.next_rowid db) (n_first_name n) (n_last_name n)
                 (n_email n) (n_age n) (n_city n) now).
  split; [|split; [reflexivity|split; [exact Ee|reflexivity]]].
  unfold index. cbn [users]. apply order_by_latest. exact Later.
Qed.

Lemma created_record_heads_index_witness :
  let john := mkUser 1 "John" "Doe" "john@x.com" 30 "NYC" 7 in
  let jane := mkUser 2 "Jane" "Roe" "jane@x.com" 25 "LA" 5 in
  let form := [("first_name", "Jim"); ("last_name", "Poe");
               ("email", "jim@x.com"); ("age", "41"); ("city", "Rome")] in
  let jim := mkUser 3 "Jim" "Poe" "jim@x.com" 41 "Rome" 9 in
  add_user POST form 9 [jane; john]
  = ([jane; john; jim], respond [added] (redirect "index"))
  /\ (forall v, In v [jane; john] -> (created_at v < 9)%Z)
  /\ users (index [jane; john]) = [john; jane]
  /\ exists u,
       users (index [jane; john; jim]) = u :: users (index [jane; john])
       /\ id u = Sql.next_rowid [jane; john]
       /\ email u = Py.strip (get form "email" "")
       /\ created_at u = 9%Z.
Proof.
  intros john jane form jim.
  assert (L : forall v, In v [jane; john] -> (created_at v < 9)%Z).
  { intros v [<-|[<-|[]]]; reflexivity. }
  split; [reflexivity|]. split; [exact L|]. split; [reflexivity|].
  exact (created_record_heads_index form 9 [jane; john] [jane; john; jim]
           (respond [added] (redirect "index")) eq_refl eq_refl L).
Defined.

(* ------------------------------------------------------------------ *)
(** ** Missing and blank fields *)
(* ------------------------------------------------------------------ *)

Lemma get_absent (d : MultiDict) (key default : string) :
  (forall v, ~ In (key, v) d) -> get d key default = default.
Proof.
  induction d as [|[k v] d IH]; simpl; [reflexivity|]. intros H.
  destruct (String.eqb_spec k key) as [->|_].
  - exfalso. apply (H v). left. reflexivity.
  - apply IH. intros w Hw. apply (H w). right. exact Hw.
Qed.

Lemma validate_missing (c : Candidate) :
  validate c = inl missing_fields <->
  Py.all [c_first_name (trim c); c_last_name (trim c); c_email (trim c);
          c_age (trim c); c_city (trim c)] = false.
Proof.
  rewrite validate_cascade.
  destruct (Py.all _); cbn [negb]; [|split; reflexivity].
  split; [|discriminate].
  destruct ((Py.len (c_first_name (trim c)) <? 2)%nat || _); [discriminate|].
  destruct ((Py.len (c_last_name (trim c)) <? 2)%nat || _); [discriminate|].
  destruct (Py.int _) as [a|]; [|discriminate].
  destruct ((a <=? 0)%Z || _); [discriminate|].
  destruct ((Py.len (c_city (trim c)) <? 2)%nat || _); discriminate.
Qed.

Lemma some_field_blank (form : MultiDict) :
  Py.all [c_first_name (trim (candidate form)); c_last_name (trim (candidate form));
          c_email (trim (candidate form)); c_age (trim (candidate form));
          c_city (trim (candidate form))] = false <->
  exists key, In key field_names /\ Py.strip (get form key "") = "".
Proof.
  unfold Py.all, trim, candidate, field_names.
  cbn [c_first_name c_last_name c_email c_age c_city forallb].
  split.
  - intros H.
    destruct (Py.strip (get form "first_name" "")) eqn:E1;
      [exists "first_name"; simpl; auto|].
    destruct (Py.strip (get form "last_name" "")) eqn:E2;
      [exists "last_name"; simpl; auto|].
    destruct (Py.strip (get form "email" "")) eqn:E3;
      [exists "email"; simpl; auto|].
    destruct (Py.strip (get form "age" "")) eqn:E4;
      [exists "age"; simpl; auto 6|].
    destruct (Py.strip (get form "city" "")) eqn:E5;
      [exists "city"; simpl; auto 7|].
    discriminate H.
  - intros (key & [<-|[<-|[<-|[<-|[<-|[]]]]]] & ->); cbn [Py.truthy andb];
      rewrite ?andb_false_r; reflexivity.
Qed.

(** X12. The message that all fields are required is the answer of
    [add_user] exactly when one of the five fields is blank after trimming;
    in particular when the form lacks one of the five keys, whatever else it
    holds.  [update_user] answers an existing record's form the same way. *)
Theorem all_fields_required (form : MultiDict) (now : Z) (db : Sql.Table) :
  (add_user POST form now db
   = add_rejected db ("All fields are required!", "error")
   <-> exists key, In key field_names /\ Py.strip (get form key "") = "")
  /\ (forall key, In key field_names -> (forall v, ~ In (key, v) form) ->
        add_user POST form now db
        = add_rejected db ("All fields are required!", "error"))
  /\ (forall user_id user,
        Sql.get db user_id = Some user ->
        (exists key, In key field_names /\ Py.strip (get form key "") = "") ->
        update_user user_id POST form db
        = update_rejected db user ("All fields are required!", "error")).
Proof.
  assert (Iff : add_user POST form now db
                = add_rejected db ("All fields are required!", "error")
                <-> exists key, In key field_names
                                /\ Py.strip (get form key "") = "").
  { rewrite <- some_field_blank, <- validate_missing, add_user_post.
    destruct (validate (candidate form)) as [r|n] eqn:V.
    - split.
      + intros E. injection E as E. destruct r; try discriminate E. reflexivity.
      + intros [= ->]. reflexivity.
    - split; [|discriminate]. unfold create.
      destruct (Sql.first_by_email db (n_email n)); [discriminate|].
      destruct (Sql.insert _ _ _ _ _ _ _); discriminate. }
  split; [exact Iff|]. split.
  - intros key Hk Absent. apply Iff. exists key. split; [exact Hk|].
    rewrite get_absent by exact Absent. reflexivity.
  - intros user_id user G B. rewrite update_user_post, G.
    apply some_field_blank, validate_missing in B. rewrite B. reflexivity.
Qed.

Lemma all_fields_required_witness :
  let form := [("first_name", "John"); ("age", "30"); ("city", "  ")] in
  let john := mkUser 1 "John" "Doe" "john@x.com" 30 "NYC" 7 in
  In "email" field_names
  /\ (forall v, ~ In ("email", v) form)
  /\ Sql.get [john] 1 = Some john
  /\ add_user POST form 9 [john]
     = add_rejected [john] ("All fields are required!", "error")
  /\ update_user 1 POST form [john]
     = update_rejected [john] john ("All fields are required!", "error").
Proof.
  intros form john.
  assert (K : In "email" field_names) by (right; right; left; reflexivity).
  assert (A : forall v, ~ In ("email", v) form).
  { intros v [H|[H|[H|[]]]]; discriminate H. }
  split; [exact K|]. split; [exact A|]. split; [reflexivity|].
  destruct (all_fields_required form 9 [john]) as (_ & Add & Upd).
  split.
  - exact (Add "email" K A).
  - apply (Upd 1%Z john eq_refl). exists "email". split; [exact K|reflexivity].
Defined.

(* ------------------------------------------------------------------ *)
(** ** Saving a record back *)
(* ------------------------------------------------------------------ *)

(** The decimal text of an age from 1 to 150 has no white space around it
    and is read back by [int]. *)
Lemma age_text (a : Z) :
  (1 <= a <= 150)%Z ->
  Py.strip (Py.str a) = Py.str a /\ Py.int (Py.str a) = Some a
  /\ Py.truthy (Py.str a) = true.
Proof.
  intros H.
  assert (All : forallb (fun k =>
                  (Py.strip (Py.str (Z.of_nat k)) =? Py.str (Z.of_nat k))%string
                  && match Py.int (Py.str (Z.of_nat k)) with
                     | Some b => (b =? Z.of_nat k)%Z
                     | None => false
                     end
                  && Py.truthy (Py.str (Z.of_nat k))) (seq 1 150) = true)
    by (vm_compute; reflexivity).
  assert (I : In (Z.to_nat a) (seq 1 150)) by (apply in_seq; lia).
  apply (proj1 (forallb_forall _ _) All) in I. rewrite Z2Nat.id in I by lia.
  apply andb_true_iff in I as [[I1 I2]%andb_true_iff I3].
  apply String.eqb_eq in I1. split; [exact I1|]. split; [|exact I3].
  destruct (Py.int (Py.str a)) as [b|]; [|discriminate].
  apply Z.eqb_eq in I2. congruence.
Qed.

Lemma len_ok (s : string) :
  2 <= String.length s <= 50 ->
  ((Py.len s <? 2)%nat || (50 <? Py.len s)%nat) = false.
Proof.
  intros H. unfold Py.len. apply orb_false_iff. split; apply Nat.ltb_ge; lia.
Qed.

Lemma truthy_length (s : string) : 1 <= String.length s -> Py.truthy s = true.
Proof. destruct s; simpl; [lia|reflexivity]. Qed.

Lemma replaced_same (db : Sql.Table) (pk : Z) (user : User) :
  NoDup (map id db) -> Sql.get db pk = Some user ->
  map (replaced pk (mkNormalized (first_name user) (last_name user)
                                 (email user) (age user) (city user))) db
  = db.
Proof.
  intros Ni G. destruct (get_Some _ _ _ G) as [Hu Hid].
  rewrite <- (map_id db) at 2. apply map_ext_in. intros v Hv.
  unfold replaced. destruct (Z.eqb_spec (id v) pk) as [E|E]; [|reflexivity].
  rewrite (NoDup_map_injective id db v user Ni Hv Hu) by congruence.
  destruct user; reflexivity.
Qed.

(** X13. Saving a record back unchanged changes nothing: on a table that
    satisfies its constraints, a POST to [update_user] that carries a checked
    record's own first name, last name, e-mail and city, and its age as
    decimal text, succeeds and leaves the table exactly as it was. *)
Theorem resubmit_unchanged (db : Sql.Table) (user_id : Z) (user : User)
    (form : MultiDict) :
  consistent db ->
  checked user ->
  Sql.get db user_id = Some user ->
  get form "first_name" "" = first_name user ->
  get form "last_name" "" = last_name user ->
  get form "email" "" = email user ->
  get form "age" "" = Py.str (age user) ->
  get form "city" "" = city user ->
  update_user user_id POST form db
  = (db, respond [updated] (redirect "index")).
Proof.
  intros [Ni Ne] (Sf & Lf & Sl & Ll & Se & Le & Ha & Sc & Lc) G Ff Fl Fe Fa Fc.
  destruct (age_text (age user) Ha) as (Sa & Ia & Ta).
  destruct (get_Some _ _ _ G) as [Hu Hid].
  assert (V : validate (candidate form)
              = inr (mkNormalized (first_name user) (last_name user)
                                  (email user) (age user) (city user))).
  { rewrite validate_cascade. unfold trim, candidate, Py.all.
    cbn [c_first_name c_last_name c_email c_age c_city forallb].
    rewrite Ff, Fl, Fe, Fa, Fc, Sf, Sl, Se, Sc, Sa, Ia, Ta.
    rewrite (truthy_length (first_name user)) by lia.
    rewrite (truthy_length (last_name user)) by lia.
    rewrite (truthy_length (email user)) by lia.
    rewrite (truthy_length (city user)) by lia.
    cbn [andb negb]. rewrite !len_ok by assumption.
    rewrite age_outside.
    destruct (Z.leb_spec 1 (age user)), (Z.leb_spec (age user) 150);
      try lia. reflexivity. }
  rewrite update_user_post, G, V. unfold change.
  cbn [n_first_name n_last_name n_email n_age n_city].
  assert (Own : forall u, In u db -> email u = email user -> id u = user_id).
  { intros u Hv Eu.
    rewrite (NoDup_map_injective email db u user Ne Hv Hu Eu). exact Hid. }
  pose proof (update_map db user_id
                (mkNormalized (first_name user) (last_name user) (email user)
                              (age user) (city user)) Own) as U.
  cbn [n_first_name n_last_name n_email n_age n_city] in U.
  rewrite U, (replaced_same db user_id user Ni G).
  destruct (Sql.first_by_email db (email user)) as [other|] eqn:F;
    [|reflexivity].
  apply first_by_email_Some in F as [Ho Eo].
  rewrite (proj2 (Z.eqb_eq _ _) (Own other Ho Eo)). reflexivity.
Qed.

Lemma resubmit_unchanged_witness :
  let john := mkUser 1 "John" "Doe" "john@x.com" 30 "NYC" 7 in
  let jane := mkUser 2 "Jane" "Roe" "jane@x.com" 25 "LA" 9 in
  let form := [("first_name", first_name jane); ("last_name", last_name jane);
               ("email", email jane); ("age", Py.str (age jane));
               ("city", city jane)] in
  consistent [john; jane]
  /\ checked jane
  /\ Sql.get [john; jane] 2 = Some jane
  /\ get form "age" "" = "25"
  /\ update_user 2 POST form [john; jane]
     = ([john; jane], respond [updated] (redirect "index")).
Proof.
  intros john jane form.
  assert (C : consistent [john; jane]).
  { split; repeat constructor; simpl; intuition discriminate. }
  assert (K : checked jane).
  { unfold checked. simpl. repeat split; try reflexivity; lia. }
  split; [exact C|]. split; [exact K|]. split; [reflexivity|].
  split; [reflexivity|].
  exact (resubmit_unchanged [john; jane] 2 jane form C K eq_refl eq_refl
           eq_refl eq_refl eq_refl eq_refl).
Defined.

(* ------------------------------------------------------------------ *)
(** ** The printed form of a record *)
(* ------------------------------------------------------------------ *)

Lemma uint_text_no_colon (d : Decimal.uint) :
  occurs ":" (NilEmpty.string_of_uint d) = false.
Proof. induction d; simpl; auto. Qed.

Lemma str_no_colon (n : Z) : occurs ":" (Py.str n) = false.
Proof.
  unfold Py.str. destruct n as [|p|p]; [reflexivity| |];
    cbn [Z.to_int NilZero.string_of_int]; unfold NilZero.string_of_uint;
    destruct (Pos.to_uint p) eqn:E; try apply uint_text_no_colon;
    reflexivity.
Qed.

Lemma str_injective (a b : Z) : Py.str a = Py.str b -> a = b.
Proof.
  unfold Py.str. intros E. apply DecimalZ.to_int_inj.
  assert (N : forall z, Z.to_int z <> Decimal.Pos Decimal.Nil
                        /\ Z.to_int z <> Decimal.Neg Decimal.Nil).
  { intros [|p|p]; split; simpl; try discriminate; intros [= H];
      exact (Unsigned.to_uint_nonnil p H). }
  apply (f_equal NilZero.int_of_string) in E.
  rewrite !NilZero.isi in E by apply N. congruence.
Qed.

Lemma split_at_first (c : ascii) (s1 s2 r1 r2 : string) :
  occurs c s1 = false -> occurs c s2 = false ->
  s1 ++ String c r1 = s2 ++ String c r2 -> s1 = s2.
Proof.
  revert s2. induction s1 as [|a s1 IH]; intros [|b s2]; simpl; intros O1 O2 E.
  - reflexivity.
  - injection E as -> _. rewrite Ascii.eqb_refl in O2. discriminate.
  - injection E as -> _. rewrite Ascii.eqb_refl in O1. discriminate.
  - injection E as -> E. apply orb_false_iff in O1 as [_ O1], O2 as [_ O2].
    f_equal. exact (IH s2 O1 O2 E).
Qed.

(** X14. The printed form of a record tells its identifier: two records
    with the same [repr] have the same identifier, so in a table with a
    primary key no two rows print alike. *)
Theorem repr_tells_id (u v : User) : repr u = repr v -> id u = id v.
Proof.
  unfold repr. intros E. simpl in E. injection E as E.
  apply str_injective.
  apply (split_at_first ":" _ _ _ _ (str_no_colon _) (str_no_colon _) E).
Qed.

Lemma repr_tells_id_witness :
  let u := mkUser 12 "Ann Lee" "Roe" "ann@x.com" 30 "NYC" 7 in
  let v := mkUser 12 "Ann" "Lee Roe" "lee@x.com" 41 "LA" 9 in
  repr u = "<User 12: Ann Lee Roe>" /\ repr u = repr v /\ id u = id v.
Proof.
  intros u v. split; [reflexivity|].
  assert (E : repr u = repr v) by reflexivity.
  split; [exact E|]. exact (repr_tells_id u v E).
Defined.

(* ------------------------------------------------------------------ *)
(** ** Deleting frees the e-mail *)
(* ------------------------------------------------------------------ *)

(** X15. On a table that satisfies its constraints, a valid field set with
    the e-mail of a stored record is rejected as a duplicate while the record
    exists, and is accepted once that record has been deleted: the new record
    then carries the e-mail. *)
Theorem delete_frees_email (db : Sql.Table) (user_id : Z) (user : User)
    (form : MultiDict) (now : Z) (n : Normalized) :
  consistent db ->
  Sql.get db user_id = Some user ->
  validate (candidate form) = inr n ->
  Py.strip (get form "email" "") = email user ->
  add_user POST form now db = add_rejected db duplicate_email
  /\ exists u,
       add_user POST form now (fst (delete_user user_id db))
         = ((fst (delete_user user_id db) ++ [u])%list,
            respond [added] (redirect "index"))
       /\ email u = email user.
Proof.
  intros [Ni Ne] G V E. destruct (get_Some _ _ _ G) as [Hu Hid].
  destruct (validate_accepted _ _ V) as (_ & _ & En & _).
  cbn [candidate c_email] in En. rewrite E in En. split.
  - rewrite add_user_post, V. unfold create. rewrite En.
    destruct (Sql.first_by_email db (email user)) eqn:F; [reflexivity|].
    exfalso. exact (proj1 (first_by_email_None _ _) F user Hu eq_refl).
  - unfold delete_user. rewrite G. cbn [Sql.delete fst].
    rewrite add_user_post, V. unfold create.
    assert (F : Sql.first_by_email
                  (filter (fun u => negb (id u =? user_id)%Z) db) (n_email n)
                = None).
    { apply first_by_email_None. intros w [Hw Iw]%filter_In Ew.
      apply negb_true_iff, Z.eqb_neq in Iw. apply Iw.
      rewrite (NoDup_map_injective email db w user Ne Hw Hu); congruence. }
    rewrite F, (proj2 (insert_refused _ now _ _ _ _ _) F).
    eexists. split; [reflexivity|]. exact En.
Qed.

Lemma delete_frees_email_witness :
  let john := mkUser 1 "John" "Doe" "john@x.com" 30 "NYC" 7 in
  let jane := mkUser 2 "Jane" "Roe" "jane@x.com" 25 "LA" 9 in
  let form := [("first_name", "Johnny"); ("last_name", "Poe");
               ("email", "john@x.com"); ("age", "31"); ("city", "Rome")] in
  consistent [john; jane]
  /\ Sql.get [john; jane] 1 = Some john
  /\ validate (candidate form)
     = inr (mkNormalized "Johnny" "Poe" "john@x.com" 31 "Rome")
  /\ Py.strip (get form "email" "") = email john
  /\ add_user POST form 11 [john; jane]
     = add_rejected [john; jane] duplicate_email
  /\ add_user POST form 11 (fst (delete_user 1 [john; jane]))
     = ([jane; mkUser 3 "Johnny" "Poe" "john@x.com" 31 "Rome" 11],
        respond [added] (redirect "index")).
Proof.
  intros john jane form.
  assert (C : consistent [john; jane]).
  { split; repeat constructor; simpl; intuition discriminate. }
  split; [exact C|]. split; [reflexivity|]. split; [reflexivity|].
  split; [reflexivity|].
  destruct (delete_frees_email [john; jane] 1 john form 11 _ C eq_refl eq_refl
              eq_refl) as [D _].
  split; [exact D|reflexivity].
Defined.
